(** * The Pontem wallet adapter

    A shallow embedding of
    [packages/aptos-wallet-adapter/src/WalletAdapters/PontemWallet.ts]:
    the class [PontemWalletAdapter], its accessors and its five asynchronous
    operations, with the injected provider ([window.pontem]) as the
    environment.

    The operations are written in a small monad [Prog] whose nodes are the
    effects the TypeScript performs: reading and assigning the fields of
    [this], reading the global [window], emitting an event, logging to the
    console, and awaiting a call into the provider.  Two semantics are given:

    - [run] executes one operation to completion against a [World] that says
      what the globals are and how each provider promise settles; it returns
      the chronological list of provider calls and emitted events, the final
      fields of the adapter and whether the operation's promise is fulfilled
      or rejected;
    - [step] is the machine of the page: an operation runs up to its next
      [await] and is suspended there, and in between other operations may be
      called, the polling callback may fire and suspended operations may be
      resumed with whatever the provider answers.  [reachable] is the set of
      states of that machine.

    What is outside the file is kept abstract: the provider is known by its
    answers only; [emit] (inherited from [BaseWalletAdapter]) appends to the
    list of observations, the listeners being taken not to call back into
    the adapter while [emit] runs; [scopePollingDetectionStrategy] is the
    machine firing the callback it was given. *)

From Stdlib Require Import String List ZArith Bool Lia.
Import ListNotations.
Open Scope string_scope.
Open Scope list_scope.

(** ** JavaScript values *)

Inductive ErrorClass : Type := Error | TypeError | ReferenceError.

(** The classes imported from [../WalletProviders/errors]. *)
Inductive WalletErrorClass : Type :=
| WalletDisconnectionError
| WalletNotConnectedError
| WalletNotReadyError
| WalletSignAndSubmitMessageError
| WalletSignMessageError
| WalletSignTransactionError.

(** The values that flow through the adapter: provider responses, thrown
    values, event arguments, addresses and keys.  [JObject] is a plain object
    (a provider response such as [{ success: false }], a [HexString]);
    [JError c m] is [new c(m)] for a built-in error class;
    [JWalletError c m e] is [new c(m, e)] for a class of the adapter
    framework, an argument left out being [JUndefined]. *)
#[local] Set Warnings "-register-all".
Inductive JsValue : Type :=
| JUndefined
| JNull
| JBool (b : bool)
| JNum (n : Z)
| JStr (s : string)
| JBytes (bytes : list Byte.byte)
| JObject (fields : list (string * JsValue))
| JError (cls : ErrorClass) (message : string)
| JWalletError (cls : WalletErrorClass) (message error : JsValue).

(** How a computation ends: with a value, or by throwing.  For an [async]
    function and for a provider promise, [Returns a] is a promise fulfilled
    with [a] and [Throws e] a promise rejected with [e]. *)
Inductive Outcome (A : Type) : Type :=
| Returns (a : A)
| Throws (e : JsValue).
Arguments Returns {A} a.
Arguments Throws {A} e.

(** [!!v] *)
Definition truthy (v : JsValue) : bool :=
  match v with
  | JUndefined | JNull => false
  | JBool b => b
  | JNum n => negb (n =? 0)%Z
  | JStr s => negb (s =? "")
  | JBytes _ | JObject _ | JError _ _ | JWalletError _ _ _ => true
  end.

(** [a || b], for a [b] whose evaluation has no effect. *)
Definition js_or (a b : JsValue) : JsValue := if truthy a then a else b.

Fixpoint lookup (fields : list (string * JsValue)) (p : string) : JsValue :=
  match fields with
  | [] => JUndefined
  | (k, v) :: rest => if k =? p then v else lookup rest p
  end.

(** Modelled from the spec: the error classes of [../WalletProviders/errors]
    are not part of the sources.  The adapter builds them from
    [(message?, error?)]; an instance keeps the second argument as its
    [error] property and, as every [Error] does, has the empty string as
    [message] when none was given. *)
Definition wallet_error_property (message error : JsValue) (p : string) : JsValue :=
  if p =? "message" then
    match message with
    | JUndefined => JStr ""
    | m => m
    end
  else if p =? "error" then error
  else JUndefined.

(** [v.p]: reading a property of [undefined] or [null] throws a [TypeError];
    a property an object does not have is [undefined].  On error objects only
    the properties the adapter reads are kept ([message], [error]). *)
Definition member (v : JsValue) (p : string) : Outcome JsValue :=
  match v with
  | JUndefined =>
      Throws (JError TypeError ("Cannot read properties of undefined (reading '" ++ p ++ "')")%string)
  | JNull =>
      Throws (JError TypeError ("Cannot read properties of null (reading '" ++ p ++ "')")%string)
  | JObject fields => Returns (lookup fields p)
  | JError _ m => Returns (if p =? "message" then JStr m else JUndefined)
  | JWalletError _ m e => Returns (wallet_error_property m e p)
  | JBool _ | JNum _ | JStr _ | JBytes _ => Returns JUndefined
  end.

(** [v?.p], which never throws. *)
Definition opt_member (v : JsValue) (p : string) : JsValue :=
  match member v p with
  | Returns x => x
  | Throws _ => JUndefined
  end.

(** ** The data of the adapter *)

(** [WalletReadyState] is imported from [./BaseAdapter]; its four members are
    the ones the specification lists. *)
Inductive WalletReadyState : Type := Installed | NotDetected | Loadable | Unsupported.

Definition WalletReadyState_eqb (a b : WalletReadyState) : bool :=
  match a, b with
  | Installed, Installed | NotDetected, NotDetected
  | Loadable, Loadable | Unsupported, Unsupported => true
  | _, _ => false
  end.

(** [interface PontemAccount]; an optional field that is not set reads as
    [JUndefined]. *)
Record PontemAccount : Type := {
  address : JsValue;
  publicKey : JsValue;
  authKey : JsValue;
  isConnected : bool
}.

(** [AccountKeys] of [./BaseAdapter]: each identifier or [null]. *)
Record AccountKeys : Type := {
  keys_publicKey : JsValue;
  keys_address : JsValue;
  keys_authKey : JsValue
}.

(** A reference to an injected provider object.  What the object answers is
    the environment's business ([provider_reply] below). *)
Definition IPontemWallet : Type := nat.

(** The methods of [interface IPontemWallet], with their arguments. *)
Inductive ProviderCall : Type :=
| p_connect
| p_account
| p_publicKey
| p_generateTransaction (sender payload : JsValue)
| p_signAndSubmit (transaction options : JsValue)
| p_isConnected
| p_signTransaction (transaction options : JsValue)
| p_signMessage (message : string)
| p_disconnect.

(** [interface PontemWindow]: [pontem] may be missing. *)
Record PontemWindow : Type := { pontem : option IPontemWallet }.

(** The fields of a [PontemWalletAdapter] instance. *)
Record PontemWalletAdapter : Type := {
  _provider : option IPontemWallet;
  _timeout : Z;
  _readyState : WalletReadyState;
  _connecting : bool;
  _wallet : option PontemAccount
}.

Definition set_readyState (r : WalletReadyState) (this : PontemWalletAdapter) :=
  {| _provider := _provider this; _timeout := _timeout this; _readyState := r;
     _connecting := _connecting this; _wallet := _wallet this |}.

Definition set_connecting (b : bool) (this : PontemWalletAdapter) :=
  {| _provider := _provider this; _timeout := _timeout this;
     _readyState := _readyState this; _connecting := b; _wallet := _wallet this |}.

Definition set_wallet (w : option PontemAccount) (this : PontemWalletAdapter) :=
  {| _provider := _provider this; _timeout := _timeout this;
     _readyState := _readyState this; _connecting := _connecting this; _wallet := w |}.

(** The events of the adapter, [emit(name, argument)]. *)
Inductive WalletEvent : Type :=
| ev_connect (address : JsValue)
| ev_disconnect
| ev_error (error : JsValue)
| ev_readyStateChange (state : WalletReadyState).

(** ** Programs *)

Inductive Prog (A : Type) : Type :=
| Ret (a : A)
| Throw (e : JsValue)
| This (k : PontemWalletAdapter -> Prog A)
| Assign (f : PontemWalletAdapter -> PontemWalletAdapter) (k : Prog A)
| Global (k : option PontemWindow -> Prog A)
| Emit (ev : WalletEvent) (k : Prog A)
| ConsoleLog (args : list JsValue) (k : Prog A)
| Await (provider : option IPontemWallet) (c : ProviderCall) (k : Outcome JsValue -> Prog A).
Arguments Ret {A} a.
Arguments Throw {A} e.
Arguments This {A} k.
Arguments Assign {A} f k.
Arguments Global {A} k.
Arguments Emit {A} ev k.
Arguments ConsoleLog {A} args k.
Arguments Await {A} provider c k.

Fixpoint bind {A B : Type} (m : Prog A) (f : A -> Prog B) : Prog B :=
  match m with
  | Ret a => f a
  | Throw e => Throw e
  | This k => This (fun this => bind (k this) f)
  | Assign g k => Assign g (bind k f)
  | Global k => Global (fun w => bind (k w) f)
  | Emit ev k => Emit ev (bind k f)
  | ConsoleLog args k => ConsoleLog args (bind k f)
  | Await p c k => Await p c (fun r => bind (k r) f)
  end.

Declare Scope prog_scope.
Delimit Scope prog_scope with prog.
Bind Scope prog_scope with Prog.
Notation "x <- m ;; k" := (bind m (fun x => k))
  (at level 61, m at next level, right associativity) : prog_scope.
Notation "m ;; k" := (bind m (fun _ => k))
  (at level 61, right associativity) : prog_scope.
Open Scope prog_scope.

(** [try { body } catch (error) { handler }] *)
Fixpoint try_catch {A : Type} (body : Prog A) (handler : JsValue -> Prog A) : Prog A :=
  match body with
  | Ret a => Ret a
  | Throw e => handler e
  | This k => This (fun this => try_catch (k this) handler)
  | Assign g k => Assign g (try_catch k handler)
  | Global k => Global (fun w => try_catch (k w) handler)
  | Emit ev k => Emit ev (try_catch k handler)
  | ConsoleLog args k => ConsoleLog args (try_catch k handler)
  | Await p c k => Await p c (fun r => try_catch (k r) handler)
  end.

(** [try { body } finally { final }]: [final] runs however [body] ends, a
    [return] inside the [try] block included, and the way [body] ended
    stands unless [final] itself throws. *)
Fixpoint try_finally {A : Type} (body : Prog A) (final : Prog unit) : Prog A :=
  match body with
  | Ret a => final ;; Ret a
  | Throw e => final ;; Throw e
  | This k => This (fun this => try_finally (k this) final)
  | Assign g k => Assign g (try_finally k final)
  | Global k => Global (fun w => try_finally (k w) final)
  | Emit ev k => Emit ev (try_finally k final)
  | ConsoleLog args k => ConsoleLog args (try_finally k final)
  | Await p c k => Await p c (fun r => try_finally (k r) final)
  end.

Definition this_ : Prog PontemWalletAdapter := This (fun this => Ret this).
Definition assign (f : PontemWalletAdapter -> PontemWalletAdapter) : Prog unit :=
  Assign f (Ret tt).
Definition emit (ev : WalletEvent) : Prog unit := Emit ev (Ret tt).
Definition console_log (args : list JsValue) : Prog unit := ConsoleLog args (Ret tt).
Definition lift {A : Type} (o : Outcome A) : Prog A :=
  match o with
  | Returns a => Ret a
  | Throws e => Throw e
  end.

(** [await provider?.c(...)]: the node [Await] is this expression.  With a
    provider the method is called and the function is suspended until the
    promise settles; with none no call is made and the awaited value is
    [undefined]. *)
Definition await (provider : option IPontemWallet) (c : ProviderCall) : Prog JsValue :=
  Await provider c lift.

(** [!!o] for a reference that is an object or missing. *)
Definition present {A : Type} (o : option A) : bool :=
  match o with
  | Some _ => true
  | None => false
  end.

(** [window.pontem]: where no global [window] exists (the environment the
    constructor tests for with [typeof window === 'undefined']) the reference
    throws. *)
Definition window_pontem : Prog (option IPontemWallet) :=
  Global (fun w =>
    match w with
    | Some win => Ret (pontem win)
    | None => Throw (JError ReferenceError "window is not defined")
    end).

(** [this._provider || window.pontem] *)
Definition provider_or_window : Prog (option IPontemWallet) :=
  this <- this_ ;;
  match _provider this with
  | Some p => Ret (Some p)
  | None => window_pontem
  end.

(** ** The class *)

(** The host the script runs in: the global [window] ([None] when the
    identifier is not defined), whether a global [document] exists, and how
    the promise of each provider call settles.  No operation calls the same
    method of the provider twice, so one answer for each method describes the
    provider for the length of one call. *)
Record World : Type := {
  window : option PontemWindow;
  document : bool;
  provider_reply : IPontemWallet -> ProviderCall -> Outcome JsValue
}.

(** The initialiser of [_readyState]. *)
Definition initial_readyState (W : World) : WalletReadyState :=
  match window W with
  | None => Unsupported
  | Some _ => if document W then NotDetected else Unsupported
  end.

(** [constructor({ timeout = 10000 } = {})]; [timeout] is [None] when the
    configuration leaves it out. *)
Definition constructor (W : World) (timeout : option Z) : PontemWalletAdapter :=
  {| _provider := match window W with
                  | Some win => pontem win
                  | None => None
                  end;
     _timeout := match timeout with
                 | Some t => t
                 | None => 10000%Z
                 end;
     _readyState := initial_readyState W;
     _connecting := false;
     _wallet := None |}.

(** Whether the constructor hands [detect] to
    [scopePollingDetectionStrategy]. *)
Definition polls (W : World) (this : PontemWalletAdapter) : bool :=
  match window W with
  | None => false
  | Some _ => negb (WalletReadyState_eqb (_readyState this) Unsupported)
  end.

(** The callback given to [scopePollingDetectionStrategy]. *)
Definition detect : Prog bool :=
  p <- window_pontem ;;
  match p with
  | Some _ =>
      assign (set_readyState Installed) ;;
      this <- this_ ;;
      emit (ev_readyStateChange (_readyState this)) ;;
      Ret true
  | None => Ret false
  end.

(** [get publicAccount] *)
Definition publicAccount (this : PontemWalletAdapter) : AccountKeys :=
  {| keys_publicKey :=
       js_or (match _wallet this with Some w => publicKey w | None => JUndefined end) JNull;
     keys_address :=
       js_or (match _wallet this with Some w => address w | None => JUndefined end) JNull;
     keys_authKey :=
       js_or (match _wallet this with Some w => authKey w | None => JUndefined end) JNull |}.

(** [get connecting] *)
Definition connecting (this : PontemWalletAdapter) : bool := _connecting this.

(** [get connected]: [!!this._wallet?.isConnected] *)
Definition connected (this : PontemWalletAdapter) : bool :=
  match _wallet this with
  | Some w => isConnected w
  | None => false
  end.

(** [get readyState] *)
Definition readyState (this : PontemWalletAdapter) : WalletReadyState := _readyState this.

(** [async connect(): Promise<void>] *)
Definition connect : Prog unit :=
  try_finally
    (try_catch
       (this <- this_ ;;
        if connected this || connecting this then Ret tt
        else if negb (WalletReadyState_eqb (_readyState this) Loadable
                      || WalletReadyState_eqb (_readyState this) Installed)
        then Throw (JWalletError WalletNotReadyError JUndefined JUndefined)
        else
          assign (set_connecting true) ;;
          provider <- provider_or_window ;;
          isConnected <- await provider p_isConnected ;;
          (if truthy isConnected
           then await provider p_disconnect ;; Ret tt
           else Ret tt) ;;
          response <- await provider p_connect ;;
          if negb (truthy response)
          then Throw (JWalletError WalletNotConnectedError (JStr "No connect response") JUndefined)
          else
            walletAccount <- await provider p_account ;;
            publicKey <- await provider p_publicKey ;;
            (if truthy walletAccount
             then assign (set_wallet (Some {| address := walletAccount;
                                              publicKey := publicKey;
                                              authKey := JUndefined;
                                              isConnected := true |}))
             else Ret tt) ;;
            this <- this_ ;;
            emit (ev_connect
                    (js_or (match _wallet this with
                            | Some w => address w
                            | None => JUndefined
                            end)
                           (JStr ""))))
       (fun error =>
          emit (ev_error (JError Error "User has rejected the connection")) ;;
          Throw error))
    (assign (set_connecting false)).

(** [async disconnect(): Promise<void>] *)
Definition disconnect : Prog unit :=
  this <- this_ ;;
  let wallet := _wallet this in
  provider <- provider_or_window ;;
  (if present wallet
   then
     assign (set_wallet None) ;;
     try_catch
       (await provider p_disconnect ;; Ret tt)
       (fun error =>
          emit (ev_error (JWalletError WalletDisconnectionError
                                       (opt_member error "message") error)))
   else Ret tt) ;;
  emit ev_disconnect.

(** [async signTransaction(transactionPyld, options?): Promise<Uint8Array>] *)
Definition signTransaction (transactionPyld options : JsValue) : Prog JsValue :=
  try_catch
    (this <- this_ ;;
     let wallet := _wallet this in
     provider <- provider_or_window ;;
     (if negb (present wallet) || negb (present provider)
      then Throw (JWalletError WalletNotConnectedError JUndefined JUndefined)
      else Ret tt) ;;
     response <- await provider (p_signTransaction transactionPyld options) ;;
     Ret response)
    (fun error =>
       emit (ev_error (JWalletError WalletSignTransactionError error JUndefined)) ;;
       Throw error).

(** [async signAndSubmitTransaction(transactionPyld, options?):
    Promise<{ hash: HexEncodedBytes }>] *)
Definition signAndSubmitTransaction (transactionPyld options : JsValue) : Prog JsValue :=
  try_catch
    (this <- this_ ;;
     let wallet := _wallet this in
     provider <- provider_or_window ;;
     (if negb (present wallet) || negb (present provider)
      then Throw (JWalletError WalletNotConnectedError JUndefined JUndefined)
      else Ret tt) ;;
     response <- await provider (p_signAndSubmit transactionPyld options) ;;
     if negb (truthy response) || negb (truthy (opt_member response "success"))
     then Throw (JError Error "No response")
     else
       result <- lift (member response "result") ;;
       hash <- lift (member result "hash") ;;
       Ret (JObject [("hash", hash)]))
    (fun error =>
       inner <- lift (member error "error") ;;
       message <- lift (member inner "message") ;;
       emit (ev_error (JWalletError WalletSignAndSubmitMessageError message JUndefined)) ;;
       Throw error).

(** [async signMessage(message: string): Promise<string>] *)
Definition signMessage (message : string) : Prog JsValue :=
  try_catch
    (this <- this_ ;;
     let wallet := _wallet this in
     provider <- provider_or_window ;;
     (if negb (present wallet) || negb (present provider)
      then Throw (JWalletError WalletNotConnectedError JUndefined JUndefined)
      else Ret tt) ;;
     response <- await provider (p_signMessage message) ;;
     console_log [JStr "MEMEM>>>"; response] ;;
     success <- lift (member response "success") ;;
     if truthy success
     then
       result <- lift (member response "result") ;;
       lift (member result "hexString")
     else Throw (JError Error "Sign Message failed"))
    (fun error =>
       errMsg <- lift (member error "message") ;;
       emit (ev_error (JWalletError WalletSignMessageError errMsg JUndefined)) ;;
       Throw error).

(** ** Running an operation to completion *)

(** What an observer of the adapter and of the provider sees. *)
Inductive Observation : Type :=
| Called (p : IPontemWallet) (c : ProviderCall)
| Emitted (ev : WalletEvent)
| Logged (args : list JsValue).

Record Run (A : Type) : Type := {
  trace : list Observation;
  final : PontemWalletAdapter;
  outcome : Outcome A
}.
Arguments trace {A} r.
Arguments final {A} r.
Arguments outcome {A} r.

Definition observe {A : Type} (o : Observation) (r : Run A) : Run A :=
  {| trace := o :: trace r; final := final r; outcome := outcome r |}.

(** One call of an operation with nothing else of the adapter running in
    between: every provider promise settles as [provider_reply W] says. *)
Fixpoint run {A : Type} (W : World) (m : Prog A) (this : PontemWalletAdapter) : Run A :=
  match m with
  | Ret a => {| trace := []; final := this; outcome := Returns a |}
  | Throw e => {| trace := []; final := this; outcome := Throws e |}
  | This k => run W (k this) this
  | Assign f k => run W k (f this)
  | Global k => run W (k (window W)) this
  | Emit ev k => observe (Emitted ev) (run W k this)
  | ConsoleLog args k => observe (Logged args) (run W k this)
  | Await None c k => run W (k (Returns JUndefined)) this
  | Await (Some p) c k => observe (Called p c) (run W (k (provider_reply W p c)) this)
  end.

(** The provider calls of a trace, in order. *)
Fixpoint calls (t : list Observation) : list (IPontemWallet * ProviderCall) :=
  match t with
  | [] => []
  | Called p c :: rest => (p, c) :: calls rest
  | _ :: rest => calls rest
  end.

(** The events of a trace, in order. *)
Fixpoint events (t : list Observation) : list WalletEvent :=
  match t with
  | [] => []
  | Emitted ev :: rest => ev :: events rest
  | _ :: rest => events rest
  end.

Definition is_disconnect (ev : WalletEvent) : bool :=
  match ev with
  | ev_disconnect => true
  | _ => false
  end.

(** The public operations and their arguments. *)
Inductive Operation : Type :=
| op_connect
| op_disconnect
| op_signTransaction (transactionPyld options : JsValue)
| op_signAndSubmitTransaction (transactionPyld options : JsValue)
| op_signMessage (message : string).

(** The fields of the adapter once the operation has completed. *)
Definition after (W : World) (op : Operation) (this : PontemWalletAdapter) : PontemWalletAdapter :=
  match op with
  | op_connect => final (run W connect this)
  | op_disconnect => final (run W disconnect this)
  | op_signTransaction t o => final (run W (signTransaction t o) this)
  | op_signAndSubmitTransaction t o => final (run W (signAndSubmitTransaction t o) this)
  | op_signMessage m => final (run W (signMessage m) this)
  end.

(** ** Interleaved execution *)

(** An [async] function runs without interruption up to its next [await];
    there it is suspended and other code of the page may run: another
    operation of the adapter may be called, the polling callback may fire, a
    suspended operation may be resumed. *)
Inductive Paused (A : Type) : Type :=
| Settled (o : Outcome A)
| Suspended (provider : option IPontemWallet) (c : ProviderCall)
            (k : Outcome JsValue -> Prog A).
Arguments Settled {A} o.
Arguments Suspended {A} provider c k.

Record Stretch (A : Type) : Type := {
  seen : list Observation;
  now : PontemWalletAdapter;
  next : Paused A
}.
Arguments seen {A} s.
Arguments now {A} s.
Arguments next {A} s.

Definition see {A : Type} (o : Observation) (s : Stretch A) : Stretch A :=
  {| seen := o :: seen s; now := now s; next := next s |}.

(** The stretch of [m] up to its first [await], or to its end. *)
Fixpoint advance {A : Type} (win : option PontemWindow) (m : Prog A)
    (this : PontemWalletAdapter) : Stretch A :=
  match m with
  | Ret a => {| seen := []; now := this; next := Settled (Returns a) |}
  | Throw e => {| seen := []; now := this; next := Settled (Throws e) |}
  | This k => advance win (k this) this
  | Assign f k => advance win k (f this)
  | Global k => advance win (k win) this
  | Emit ev k => see (Emitted ev) (advance win k this)
  | ConsoleLog args k => see (Logged args) (advance win k this)
  | Await provider c k =>
      {| seen := match provider with
                 | Some p => [Called p c]
                 | None => []
                 end;
         now := this;
         next := Suspended provider c k |}
  end.

(** What the awaited [provider?.c(...)] evaluates to in the world [W]. *)
Definition settle (W : World) (provider : option IPontemWallet) (c : ProviderCall) :
    Outcome JsValue :=
  match provider with
  | Some p => provider_reply W p c
  | None => Returns JUndefined
  end.

Definition prepend {A : Type} (t : list Observation) (r : Run A) : Run A :=
  {| trace := t ++ trace r; final := final r; outcome := outcome r |}.

(** A suspended call of an operation. *)
Inductive Suspension : Type :=
| suspended {A : Type} (provider : option IPontemWallet) (c : ProviderCall)
            (k : Outcome JsValue -> Prog A).

(** An adapter instance together with its calls in flight. *)
Record Machine : Type := {
  adapter : PontemWalletAdapter;
  in_flight : list Suspension
}.

Definition park {A : Type} (s : Stretch A) (others : list Suspension) : Machine :=
  {| adapter := now s;
     in_flight := match next s with
                  | Settled _ => others
                  | Suspended provider c k => suspended provider c k :: others
                  end |}.

(** Calling an operation: it runs up to its first [await]. *)
Definition start (win : option PontemWindow) (op : Operation) (M : Machine) : Machine :=
  match op with
  | op_connect => park (advance win connect (adapter M)) (in_flight M)
  | op_disconnect => park (advance win disconnect (adapter M)) (in_flight M)
  | op_signTransaction t o =>
      park (advance win (signTransaction t o) (adapter M)) (in_flight M)
  | op_signAndSubmitTransaction t o =>
      park (advance win (signAndSubmitTransaction t o) (adapter M)) (in_flight M)
  | op_signMessage m => park (advance win (signMessage m) (adapter M)) (in_flight M)
  end.

(** What an awaited [provider?.c(...)] may evaluate to: anything the provider
    settles its promise with, and [undefined] when there is no provider. *)
Definition may_settle (provider : option IPontemWallet) (r : Outcome JsValue) : Prop :=
  match provider with
  | Some _ => True
  | None => r = Returns JUndefined
  end.

Inductive step : Machine -> Machine -> Prop :=
| step_call (win : option PontemWindow) (op : Operation) (M : Machine) :
    step M (start win op M)
| step_poll (win : option PontemWindow) (M : Machine) :
    _readyState (adapter M) <> Unsupported ->
    step M (park (advance win detect (adapter M)) (in_flight M))
| step_resume (win : option PontemWindow) (A : Type)
    (provider : option IPontemWallet) (c : ProviderCall)
    (k : Outcome JsValue -> Prog A) (r : Outcome JsValue)
    (earlier later : list Suspension) (M : Machine) :
    in_flight M = earlier ++ suspended provider c k :: later ->
    may_settle provider r ->
    step M (park (advance win (k r) (adapter M)) (earlier ++ later)).

(** The states an instance can be in, whatever the page and the provider do. *)
Inductive reachable : Machine -> Prop :=
| reachable_new (W : World) (timeout : option Z) :
    reachable {| adapter := constructor W timeout; in_flight := [] |}
| reachable_step (M M' : Machine) :
    reachable M -> step M M' -> reachable M'.

(** ** Invariants of the fields *)

(** [keeps I m]: every assignment of [m] takes fields that satisfy [I] to
    fields that satisfy [I]. *)
Fixpoint keeps (I : PontemWalletAdapter -> Prop) {A : Type} (m : Prog A) : Prop :=
  match m with
  | Ret _ | Throw _ => True
  | This k => forall this, keeps I (k this)
  | Assign f k => (forall this, I this -> I (f this)) /\ keeps I k
  | Global k => forall w, keeps I (k w)
  | Emit _ k | ConsoleLog _ k => keeps I k
  | Await _ _ k => forall r, keeps I (k r)
  end.

Definition keeps_suspended (I : PontemWalletAdapter -> Prop) (t : Suspension) : Prop :=
  match t with
  | suspended _ _ k => forall r, keeps I (k r)
  end.

(** A machine all of whose parts keep [I]. *)
Definition sound (I : PontemWalletAdapter -> Prop) (M : Machine) : Prop :=
  I (adapter M) /\ Forall (keeps_suspended I) (in_flight M).

(** What [this._provider || window.pontem] evaluates to. *)
Definition the_provider (W : World) (this : PontemWalletAdapter) : Outcome (option IPontemWallet) :=
  outcome (run W provider_or_window this).

(** The record is present exactly when [connected] answers [true]. *)
Definition record_iff_connected (this : PontemWalletAdapter) : Prop :=
  _wallet this <> None <-> connected this = true.

(** Every record the adapter holds was written by [connect]: it is marked
    connected and has no [authKey]. *)
Definition record_from_connect (this : PontemWalletAdapter) : Prop :=
  forall w, _wallet this = Some w -> isConnected w = true /\ authKey w = JUndefined.

(** ** Sample worlds *)

(** A page with the extension injected as object [1]. *)
Definition browser (reply : IPontemWallet -> ProviderCall -> Outcome JsValue) : World :=
  {| window := Some {| pontem := Some 1 |}; document := true; provider_reply := reply |}.

(** A page without the extension. *)
Definition bare_browser : World :=
  {| window := Some {| pontem := None |}; document := true;
     provider_reply := fun _ _ => Returns JUndefined |}.

(** A host with neither [window] nor [document] (server-side rendering). *)
Definition server : World :=
  {| window := None; document := false; provider_reply := fun _ _ => Returns JUndefined |}.

(** A provider with no session that approves everything. *)
Definition approving (p : IPontemWallet) (c : ProviderCall) : Outcome JsValue :=
  match c with
  | p_connect =>
      Returns (JObject [("address", JStr "0xA"); ("method", JStr "connected");
                        ("publicKey", JStr "0xB"); ("status", JNum 200)])
  | p_account => Returns (JStr "0xA")
  | p_publicKey => Returns (JStr "0xB")
  | p_generateTransaction _ payload => Returns payload
  | p_signAndSubmit _ _ =>
      Returns (JObject [("success", JBool true); ("result", JObject [("hash", JStr "0x1")])])
  | p_isConnected => Returns (JBool false)
  | p_signTransaction _ _ => Returns (JBytes [Byte.x01; Byte.x02])
  | p_signMessage _ =>
      Returns (JObject [("success", JBool true);
                        ("result", JObject [("hexString", JStr "0xdead")])])
  | p_disconnect => Returns JUndefined
  end.

(** A provider that holds a session and fails to close it. *)
Definition stuck_session (p : IPontemWallet) (c : ProviderCall) : Outcome JsValue :=
  match c with
  | p_isConnected => Returns (JBool true)
  | p_disconnect => Throws (JError Error "cannot disconnect")
  | _ => approving p c
  end.

(** A provider that holds a session and closes it when asked. *)
Definition open_session (p : IPontemWallet) (c : ProviderCall) : Outcome JsValue :=
  match c with
  | p_isConnected => Returns (JBool true)
  | _ => approving p c
  end.


(** A provider that answers [{ success: false }] to every request to sign. *)
Definition refusing (p : IPontemWallet) (c : ProviderCall) : Outcome JsValue :=
  match c with
  | p_signAndSubmit _ _ | p_signMessage _ => Returns (JObject [("success", JBool false)])
  | _ => approving p c
  end.

(** A fresh instance on a page, before and after the polling has found the
    extension, and after a first [connect()]. *)
Definition fresh : PontemWalletAdapter := constructor (browser approving) None.
Definition detected : PontemWalletAdapter := final (run (browser approving) detect fresh).
Definition linked : PontemWalletAdapter := final (run (browser approving) connect detected).

(** The same instance while its first [connect()] is suspended at
    [await provider?.isConnected()]. *)
Definition linking : PontemWalletAdapter :=
  now (advance (window (browser approving)) connect detected).

(** ** Runs of the machine *)

(** Any number of steps. *)
Inductive steps : Machine -> Machine -> Prop :=
| steps_none (M : Machine) : steps M M
| steps_more (M M' M'' : Machine) : steps M M' -> step M' M'' -> steps M M''.

(** An instance with nothing in flight. *)
Definition idle (this : PontemWalletAdapter) : Machine :=
  {| adapter := this; in_flight := [] |}.

Definition is_error (ev : WalletEvent) : bool :=
  match ev with
  | ev_error _ => true
  | _ => false
  end.

(** ** More sample worlds *)

(** A provider whose [connect()] resolves to nothing. *)
Definition silent (p : IPontemWallet) (c : ProviderCall) : Outcome JsValue :=
  match c with
  | p_connect => Returns JUndefined
  | _ => approving p c
  end.

(** A provider that rejects every request to sign with a plain [Error]. *)
Definition failing (p : IPontemWallet) (c : ProviderCall) : Outcome JsValue :=
  match c with
  | p_signTransaction _ _ | p_signAndSubmit _ _ | p_signMessage _ =>
      Throws (JError Error "Rejected by user")
  | _ => approving p c
  end.

(** A provider that rejects [signAndSubmit] with
    [{ error: { message: 'declined' } }]. *)
Definition declining (p : IPontemWallet) (c : ProviderCall) : Outcome JsValue :=
  match c with
  | p_signAndSubmit _ _ =>
      Throws (JObject [("error", JObject [("message", JStr "declined")])])
  | _ => approving p c
  end.

(** An instance on a host with a [window] but no [document]. *)
Definition headless : World :=
  {| window := Some {| pontem := None |}; document := false;
     provider_reply := fun _ _ => Returns JUndefined |}.

(** [error.error.message], as the [catch] block of
    [signAndSubmitTransaction] evaluates it. *)
Definition nested_message (error : JsValue) : Outcome JsValue :=
  match member error "error" with
  | Returns inner => member inner "message"
  | Throws t => Throws t
  end.

(** The fields as the page finds them each time the operation is suspended at
    an [await], in the run that [W] determines. *)
Fixpoint snapshots {A : Type} (W : World) (m : Prog A) (this : PontemWalletAdapter) :
    list PontemWalletAdapter :=
  match m with
  | Ret _ | Throw _ => []
  | This k => snapshots W (k this) this
  | Assign f k => snapshots W k (f this)
  | Global k => snapshots W (k (window W)) this
  | Emit _ k | ConsoleLog _ k => snapshots W k this
  | Await provider c k => this :: snapshots W (k (settle W provider c)) this
  end.

(** The address of every record the adapter holds is truthy. *)
Definition record_has_address (this : PontemWalletAdapter) : Prop :=
  forall w, _wallet this = Some w -> truthy (address w) = true.


(** [at_awaits P m this]: run alone from the fields [this], whatever the
    window holds and whatever the provider answers, [m] finds fields that
    satisfy [P] each time it is suspended. *)
Fixpoint at_awaits (P : PontemWalletAdapter -> Prop) {A : Type} (m : Prog A)
    (this : PontemWalletAdapter) : Prop :=
  match m with
  | Ret _ | Throw _ => True
  | This k => at_awaits P (k this) this
  | Assign f k => at_awaits P k (f this)
  | Global k => forall w, at_awaits P (k w) this
  | Emit _ k | ConsoleLog _ k => at_awaits P k this
  | Await provider c k =>
      P this /\ forall r, may_settle provider r -> at_awaits P (k r) this
  end.

(** The machine resumes its one call in flight, and nothing else happens. *)
Inductive resumed_alone : Machine -> Machine -> Prop :=
| resume_alone (win : option PontemWindow) (A : Type)
    (provider : option IPontemWallet) (c : ProviderCall)
    (k : Outcome JsValue -> Prog A) (r : Outcome JsValue)
    (this : PontemWalletAdapter) :
    may_settle provider r ->
    resumed_alone {| adapter := this; in_flight := [suspended provider c k] |}
                  (park (advance win (k r) this) []).

(** Any number of such resumptions. *)
Inductive left_alone : Machine -> Machine -> Prop :=
| left_alone_none (M : Machine) : left_alone M M
| left_alone_more (M M' M'' : Machine) :
    left_alone M M' -> resumed_alone M' M'' -> left_alone M M''.

(** A machine with at most one call in flight, which finds [P] now and at
    each of its later suspensions. *)
Definition waits_within (P : PontemWalletAdapter -> Prop) (M : Machine) : Prop :=
  match in_flight M with
  | [] => True
  | [suspended provider c k] =>
      P (adapter M) /\
      forall r, may_settle provider r -> at_awaits P (k r) (adapter M)
  | _ :: _ :: _ => False
  end.

(** * Properties *)

(** ** Programs that keep an invariant *)

Section Keeping.
Variable I : PontemWalletAdapter -> Prop.

Lemma keeps_bind {A B : Type} (m : Prog A) (f : A -> Prog B) :
  keeps I m -> (forall a, keeps I (f a)) -> keeps I (bind m f).
Proof.
  intros Hm Hf. induction m; cbn in *; intuition auto.
Qed.

Lemma keeps_try_catch {A : Type} (body : Prog A) (handler : JsValue -> Prog A) :
  keeps I body -> (forall e, keeps I (handler e)) -> keeps I (try_catch body handler).
Proof.
  intros Hm Hh. induction body; cbn in *; intuition auto.
Qed.

Lemma keeps_try_finally {A : Type} (body : Prog A) (final : Prog unit) :
  keeps I body -> keeps I final -> keeps I (try_finally body final).
Proof.
  intros Hm Hf. induction body; cbn in *; intuition auto.
  - apply keeps_bind; cbn; auto.
  - apply keeps_bind; cbn; auto.
Qed.

Lemma keeps_lift {A : Type} (o : Outcome A) : keeps I (lift o).
Proof. destruct o; exact Logic.I. Qed.

Lemma keeps_await (provider : option IPontemWallet) (c : ProviderCall) :
  keeps I (await provider c).
Proof. intros r. apply keeps_lift. Qed.

Lemma keeps_provider_or_window : keeps I provider_or_window.
Proof.
  intros this. cbn. destruct (_provider this); cbn; auto.
  intros [win|]; exact Logic.I.
Qed.

Lemma advance_keeps {A : Type} (win : option PontemWindow) (m : Prog A) :
  keeps I m ->
  forall this, I this ->
  I (now (advance win m this)) /\
  match next (advance win m this) with
  | Settled _ => True
  | Suspended _ _ k => forall r, keeps I (k r)
  end.
Proof.
  induction m as [a|e|k IH|f k IH|k IH|ev k IH|args k IH|provider c k IH];
    cbn; intros Hm this Hthis.
  - auto.
  - auto.
  - apply IH; auto.
  - apply IH; [tauto | apply Hm; exact Hthis].
  - apply IH; auto.
  - apply IH; auto.
  - apply IH; auto.
  - auto.
Qed.

Lemma run_keeps {A : Type} (W : World) (m : Prog A) :
  keeps I m -> forall this, I this -> I (final (run W m this)).
Proof.
  induction m as [a|e|k IH|f k IH|k IH|ev k IH|args k IH|provider c k IH];
    cbn; intros Hm this Hthis.
  - auto.
  - auto.
  - apply IH; auto.
  - apply IH; [tauto | apply Hm; exact Hthis].
  - apply IH; auto.
  - apply IH; auto.
  - apply IH; auto.
  - destruct provider; cbn; apply IH; auto.
Qed.
End Keeping.

(** ** The operations keep every invariant of the record that [connect]'s and
    [disconnect]'s assignments keep *)

Section Operations.
Variable I : PontemWalletAdapter -> Prop.
Hypothesis I_readyState : forall r this, I this -> I (set_readyState r this).
Hypothesis I_connecting : forall b this, I this -> I (set_connecting b this).
Hypothesis I_cleared : forall this, I this -> I (set_wallet None this).
Hypothesis I_recorded : forall a k this,
  I this ->
  I (set_wallet (Some {| address := a; publicKey := k;
                         authKey := JUndefined; isConnected := true |}) this).

Ltac keeps_steps :=
  repeat first
    [ exact Logic.I
    | apply keeps_lift
    | apply keeps_await
    | apply keeps_provider_or_window
    | apply keeps_try_finally
    | apply keeps_try_catch
    | apply keeps_bind
    | intro
    | match goal with
      | |- keeps _ (if ?b then _ else _) => destruct b
      | |- keeps _ (match ?x with Some _ => _ | None => _ end) => destruct x
      | |- keeps _ (assign _) => split; [intros; auto | exact Logic.I]
      | |- keeps _ (emit _) => exact Logic.I
      | |- keeps _ (console_log _) => exact Logic.I
      | |- keeps _ this_ => intro; exact Logic.I
      | |- keeps _ window_pontem => intros [?|]; exact Logic.I
      | |- keeps _ (Ret _) => exact Logic.I
      | |- keeps _ (Throw _) => exact Logic.I
      end ].

Lemma keeps_detect : keeps I detect.
Proof. unfold detect. keeps_steps. Qed.

Lemma keeps_connect : keeps I connect.
Proof. unfold connect. keeps_steps. Qed.

Lemma keeps_disconnect : keeps I disconnect.
Proof. unfold disconnect. keeps_steps. Qed.

Lemma keeps_signTransaction (t o : JsValue) : keeps I (signTransaction t o).
Proof. unfold signTransaction. keeps_steps. Qed.

Lemma keeps_signAndSubmitTransaction (t o : JsValue) :
  keeps I (signAndSubmitTransaction t o).
Proof. unfold signAndSubmitTransaction. keeps_steps. Qed.

Lemma keeps_signMessage (m : string) : keeps I (signMessage m).
Proof. unfold signMessage. keeps_steps. Qed.

Lemma after_keeps (W : World) (op : Operation) (this : PontemWalletAdapter) :
  I this -> I (after W op this).
Proof.
  intros H. destruct op; cbn; apply run_keeps; auto.
  - apply keeps_connect.
  - apply keeps_disconnect.
  - apply keeps_signTransaction.
  - apply keeps_signAndSubmitTransaction.
  - apply keeps_signMessage.
Qed.

Let sound := sound I.

Lemma park_sound {A : Type} (win : option PontemWindow) (m : Prog A)
    (this : PontemWalletAdapter) (others : list Suspension) :
  keeps I m -> I this -> Forall (keeps_suspended I) others ->
  sound (park (advance win m this) others).
Proof.
  intros Hm Hthis Hothers.
  destruct (advance_keeps I win m Hm this Hthis) as [Hnow Hnext].
  split; cbn; [exact Hnow|].
  destruct (next (advance win m this)); auto.
Qed.

Lemma step_sound (M M' : Machine) : step M M' -> sound M -> sound M'.
Proof.
  intros Hstep [Hthis Htasks]. destruct Hstep as [win op M|win M Hready|win A provider c k r earlier later M Hpool Hr].
  - destruct op; cbn; apply park_sound; auto.
    + apply keeps_connect.
    + apply keeps_disconnect.
    + apply keeps_signTransaction.
    + apply keeps_signAndSubmitTransaction.
    + apply keeps_signMessage.
  - apply park_sound; auto. apply keeps_detect.
  - rewrite Hpool in Htasks. apply Forall_app in Htasks as [Hearlier Hrest].
    inversion Hrest as [|t l Ht Hlater]; subst.
    apply park_sound;
      [apply Ht | exact Hthis | apply Forall_app; split; assumption].
Qed.

Lemma reachable_sound (M : Machine) :
  (forall W timeout, I (constructor W timeout)) -> reachable M -> sound M.
Proof.
  intros Hnew Hreach. induction Hreach as [W timeout|M M' _ IH Hstep].
  - split; cbn; auto.
  - eapply step_sound; eauto.
Qed.
End Operations.

(** ** The two semantics agree *)

(** [run] is the schedule of the machine in which the call is resumed as
    soon as it is suspended, with the answer of the world. *)
Lemma run_advance {A : Type} (W : World) (m : Prog A) (this : PontemWalletAdapter) :
  run W m this =
  match next (advance (window W) m this) with
  | Settled o =>
      {| trace := seen (advance (window W) m this);
         final := now (advance (window W) m this);
         outcome := o |}
  | Suspended provider c k =>
      prepend (seen (advance (window W) m this))
              (run W (k (settle W provider c)) (now (advance (window W) m this)))
  end.
Proof.
  revert this.
  induction m as [a|e|k IH|f k IH|k IH|ev k IH|args k IH|provider c k IH];
    intros this; cbn.
  - reflexivity.
  - reflexivity.
  - apply IH.
  - apply IH.
  - apply IH.
  - rewrite IH. destruct (next (advance (window W) k this)); reflexivity.
  - rewrite IH. destruct (next (advance (window W) k this)); reflexivity.
  - destruct provider as [p|]; cbn.
    + reflexivity.
    + unfold prepend. cbn.
      destruct (run W (k (Returns JUndefined)) this); reflexivity.
Qed.

(** ** The provider lookup *)

Lemma the_provider_cases (W : World) (this : PontemWalletAdapter) :
  the_provider W this =
  match _provider this with
  | Some p => Returns (Some p)
  | None =>
      match window W with
      | Some win => Returns (pontem win)
      | None => Throws (JError ReferenceError "window is not defined")
      end
  end.
Proof.
  unfold the_provider. cbn. destruct (_provider this); cbn; [reflexivity|].
  destruct (window W); reflexivity.
Qed.

(** Case analysis on a lookup that is known to succeed. *)
Ltac found_provider H :=
  rewrite the_provider_cases in H;
  let Ep := fresh "Ep" in
  let Ew := fresh "Ew" in
  destruct (_provider _) eqn:Ep;
  [ | destruct (window _) eqn:Ew; [ | discriminate H ] ];
  injection H as H; try subst.

(** The polling callback runs only for an instance whose constructor
    registered it, which is an instance that is not [Unsupported]. *)
Lemma polls_iff_supported (W : World) (timeout : option Z) :
  polls W (constructor W timeout) = true <->
  _readyState (constructor W timeout) <> Unsupported.
Proof.
  unfold polls, constructor, initial_readyState. cbn.
  destruct (window W); [destruct (document W)|]; cbn; split; congruence.
Qed.

(** ** The invariants *)

Lemma connected_iff_keeps_readyState r this :
  record_iff_connected this -> record_iff_connected (set_readyState r this).
Proof. exact (fun H => H). Qed.

Lemma connected_iff_keeps_connecting b this :
  record_iff_connected this -> record_iff_connected (set_connecting b this).
Proof. exact (fun H => H). Qed.

Lemma connected_iff_cleared this :
  record_iff_connected this -> record_iff_connected (set_wallet None this).
Proof. intros _. split; cbn; [congruence | discriminate]. Qed.

Lemma connected_iff_recorded a k this :
  record_iff_connected this ->
  record_iff_connected
    (set_wallet (Some {| address := a; publicKey := k;
                         authKey := JUndefined; isConnected := true |}) this).
Proof. intros _. split; cbn; [reflexivity | discriminate]. Qed.

Lemma connected_iff_new W timeout : record_iff_connected (constructor W timeout).
Proof. split; cbn; [congruence | discriminate]. Qed.

Lemma from_connect_keeps_readyState r this :
  record_from_connect this -> record_from_connect (set_readyState r this).
Proof. exact (fun H => H). Qed.

Lemma from_connect_keeps_connecting b this :
  record_from_connect this -> record_from_connect (set_connecting b this).
Proof. exact (fun H => H). Qed.

Lemma from_connect_cleared this :
  record_from_connect this -> record_from_connect (set_wallet None this).
Proof. intros _ w. cbn. discriminate. Qed.

Lemma from_connect_recorded a k this :
  record_from_connect this ->
  record_from_connect
    (set_wallet (Some {| address := a; publicKey := k;
                         authKey := JUndefined; isConnected := true |}) this).
Proof. intros _ w. cbn. intros [= <-]. split; reflexivity. Qed.

Lemma from_connect_new W timeout : record_from_connect (constructor W timeout).
Proof. intros w. cbn. discriminate. Qed.

Lemma reachable_from_connect (M : Machine) :
  reachable M -> record_from_connect (adapter M).
Proof.
  intros H.
  apply (reachable_sound record_from_connect
           from_connect_keeps_readyState from_connect_keeps_connecting
           from_connect_cleared from_connect_recorded M from_connect_new H).
Qed.

(** C1. In every state an instance can reach, calls in flight included, the
    record [_wallet] is present if and only if [connected] answers [true];
    and each public operation, run from fields for which the equivalence
    holds, ends with fields for which it holds. *)
Theorem C1_record_present_iff_connected :
  (forall M : Machine, reachable M -> record_iff_connected (adapter M)) /\
  (forall (W : World) (op : Operation) (this : PontemWalletAdapter),
     record_iff_connected this -> record_iff_connected (after W op this)).
Proof.
  split.
  - intros M H.
    apply (reachable_sound record_iff_connected
             connected_iff_keeps_readyState connected_iff_keeps_connecting
             connected_iff_cleared connected_iff_recorded M connected_iff_new H).
  - intros W op this H.
    apply (after_keeps record_iff_connected
             connected_iff_keeps_connecting
             connected_iff_cleared connected_iff_recorded W op this H).
Qed.

Lemma C1_witness :
  record_iff_connected fresh /\ record_iff_connected linked.
Proof.
  split.
  - exact (proj1 C1_record_present_iff_connected
             {| adapter := fresh; in_flight := [] |}
             (reachable_new (browser approving) None)).
  - apply (proj2 C1_record_present_iff_connected (browser approving) op_connect detected).
    split; cbn; [congruence | discriminate].
Defined.

(** ** [connect] *)

Lemma ready_guard (this : PontemWalletAdapter) :
  _readyState this = Loadable \/ _readyState this = Installed ->
  WalletReadyState_eqb (_readyState this) Loadable
  || WalletReadyState_eqb (_readyState this) Installed = true.
Proof. intros [H|H]; rewrite H; reflexivity. Qed.

(** C6. When [connected] or [connecting] is [true], [connect()] returns at
    once: it reaches no [await], calls no provider operation, emits nothing,
    and leaves the record, the ready state and the provider reference as
    they were.  (Its [finally] block still runs and clears [_connecting].) *)
Theorem C6_connect_short_circuit (W : World) (this : PontemWalletAdapter) :
  connected this = true \/ connecting this = true ->
  next (advance (window W) connect this) = Settled (Returns tt) /\
  outcome (run W connect this) = Returns tt /\
  trace (run W connect this) = [] /\
  _wallet (final (run W connect this)) = _wallet this /\
  _readyState (final (run W connect this)) = _readyState this /\
  _provider (final (run W connect this)) = _provider this /\
  _connecting (final (run W connect this)) = false.
Proof.
  intros H.
  assert (Hguard : connected this || connecting this = true)
    by (apply orb_true_iff; exact H).
  unfold connect. cbn. rewrite Hguard. cbn. repeat split; reflexivity.
Qed.

(** A [connect()] that gets past its guards is suspended at
    [await provider?.isConnected()] with [_connecting] set: this is the state
    in which a second call finds the adapter while the first is in flight. *)
Lemma connect_in_flight
    (W : World) (this : PontemWalletAdapter) (provider : option IPontemWallet) :
  connected this = false ->
  connecting this = false ->
  _readyState this = Loadable \/ _readyState this = Installed ->
  the_provider W this = Returns provider ->
  (exists k, next (advance (window W) connect this) = Suspended provider p_isConnected k) /\
  now (advance (window W) connect this) = set_connecting true this.
Proof.
  intros Hc Hg Hready Hp.
  apply ready_guard in Hready.
  unfold connect. cbn. rewrite Hc, Hg. cbn. rewrite Hready. cbn.
  found_provider Hp; cbn; rewrite ?Ew; cbn.
  all: split; [eexists; reflexivity | reflexivity].
Qed.

Lemma C6_witness :
  connecting linking = true /\
  next (advance (window (browser approving)) connect linking) = Settled (Returns tt) /\
  trace (run (browser approving) connect linking) = [] /\
  outcome (run (browser approving) connect linked) = Returns tt /\
  trace (run (browser approving) connect linked) = [] /\
  _wallet (final (run (browser approving) connect linked)) = _wallet linked.
Proof.
  destruct (C6_connect_short_circuit (browser approving) linking (or_intror eq_refl))
    as (Hn & _ & Ht' & _).
  destruct (C6_connect_short_circuit (browser approving) linked (or_introl eq_refl))
    as (_ & Ho & Ht & Hw & _).
  exact (conj eq_refl (conj Hn (conj Ht' (conj Ho (conj Ht Hw))))).
Defined.

(** C4. When the ready state is neither [Loadable] nor [Installed] and the
    adapter is neither connected nor connecting, [connect()] rejects with a
    [WalletNotReadyError], calls no provider operation, and leaves the record
    as it was: absent, in every state where record and [connected] agree. *)
Theorem C4_connect_not_ready (W : World) (this : PontemWalletAdapter) :
  _readyState this <> Loadable ->
  _readyState this <> Installed ->
  connected this = false ->
  connecting this = false ->
  outcome (run W connect this) =
    Throws (JWalletError WalletNotReadyError JUndefined JUndefined) /\
  calls (trace (run W connect this)) = [] /\
  events (trace (run W connect this)) =
    [ev_error (JError Error "User has rejected the connection")] /\
  _wallet (final (run W connect this)) = _wallet this /\
  (record_iff_connected this -> _wallet (final (run W connect this)) = None).
Proof.
  intros Hl Hi Hc Hg.
  assert (Hready : WalletReadyState_eqb (_readyState this) Loadable
                   || WalletReadyState_eqb (_readyState this) Installed = false)
    by (destruct (_readyState this); cbn; congruence).
  unfold connect. cbn. rewrite Hc, Hg. cbn. rewrite Hready. cbn.
  repeat split.
  intros [Hpresent _].
  destruct (_wallet this) as [w|] eqn:Ew; [|reflexivity].
  exfalso. rewrite Hc in Hpresent.
  assert (false = true) by (apply Hpresent; discriminate).
  discriminate.
Qed.

Lemma C4_witness :
  outcome (run (browser approving) connect fresh) =
    Throws (JWalletError WalletNotReadyError JUndefined JUndefined) /\
  calls (trace (run (browser approving) connect fresh)) = [] /\
  _wallet (final (run (browser approving) connect fresh)) = None.
Proof.
  destruct (C4_connect_not_ready (browser approving) fresh) as (Ho & Hc & _ & _ & Hw).
  - cbn; discriminate.
  - cbn; discriminate.
  - reflexivity.
  - reflexivity.
  - refine (conj Ho (conj Hc (Hw _))).
    split; cbn; [congruence | discriminate].
Defined.

(** C2, as the code has it.  When [connect()] goes ahead and the provider
    reports an existing session, the adapter asks the provider to disconnect
    before anything else.  If that call succeeds, [provider.connect()] is
    invoked next.  If it fails, the failure is not swallowed: [connect()]
    emits its generic [error] event and rejects with that failure, and
    [provider.connect()] is not invoked. *)
Theorem C2_connect_closes_existing_session
    (W : World) (this : PontemWalletAdapter) (p : IPontemWallet) (v : JsValue) :
  connected this = false ->
  connecting this = false ->
  _readyState this = Loadable \/ _readyState this = Installed ->
  the_provider W this = Returns (Some p) ->
  provider_reply W p p_isConnected = Returns v ->
  truthy v = true ->
  match provider_reply W p p_disconnect with
  | Returns _ =>
      exists rest,
        calls (trace (run W connect this)) =
          (p, p_isConnected) :: (p, p_disconnect) :: (p, p_connect) :: rest
  | Throws e =>
      calls (trace (run W connect this)) = [(p, p_isConnected); (p, p_disconnect)] /\
      events (trace (run W connect this)) =
        [ev_error (JError Error "User has rejected the connection")] /\
      outcome (run W connect this) = Throws e /\
      final (run W connect this) = set_connecting false this
  end.
Proof.
  intros Hc Hg Hready Hp Hsession Hv.
  apply ready_guard in Hready.
  unfold connect. cbn. rewrite Hc, Hg. cbn. rewrite Hready. cbn.
  found_provider Hp; cbn; rewrite ?Ew; cbn; rewrite ?Hp; cbn.
  all: rewrite Hsession; cbn; rewrite Hv; cbn.
  all: destruct (provider_reply W p p_disconnect) as [d|e]; cbn.
  all: try (eexists; reflexivity).
  all: repeat split.
Qed.

Lemma C2_witness :
  (exists rest,
     calls (trace (run (browser open_session) connect detected)) =
       (1, p_isConnected) :: (1, p_disconnect) :: (1, p_connect) :: rest) /\
  calls (trace (run (browser stuck_session) connect detected)) =
    [(1, p_isConnected); (1, p_disconnect)] /\
  outcome (run (browser stuck_session) connect detected) =
    Throws (JError Error "cannot disconnect").
Proof.
  split.
  - exact (C2_connect_closes_existing_session (browser open_session) detected 1 (JBool true)
             eq_refl eq_refl (or_intror eq_refl) eq_refl eq_refl eq_refl).
  - destruct (C2_connect_closes_existing_session (browser stuck_session) detected 1 (JBool true)
                eq_refl eq_refl (or_intror eq_refl) eq_refl eq_refl eq_refl)
      as (Hcalls & _ & Hout & _).
    exact (conj Hcalls Hout).
Defined.

(** C2, as the specification words it, fails: with a provider that reports a
    session and whose [disconnect()] rejects, [connect()] calls
    [isConnected()] and [disconnect()], never calls [provider.connect()], and
    rejects with the failure of [disconnect()]. *)
Lemma C2_counterexample :
  connected detected = false /\
  connecting detected = false /\
  readyState detected = Installed /\
  provider_reply (browser stuck_session) 1 p_isConnected = Returns (JBool true) /\
  provider_reply (browser stuck_session) 1 p_disconnect =
    Throws (JError Error "cannot disconnect") /\
  trace (run (browser stuck_session) connect detected) =
    [Called 1 p_isConnected; Called 1 p_disconnect;
     Emitted (ev_error (JError Error "User has rejected the connection"))] /\
  ~ In (1, p_connect) (calls (trace (run (browser stuck_session) connect detected))) /\
  outcome (run (browser stuck_session) connect detected) =
    Throws (JError Error "cannot disconnect").
Proof.
  repeat split.
  cbn. intros [H|[H|[]]]; discriminate H.
Qed.




(** ** [disconnect] *)

(** Wherever the provider lookup [this._provider || window.pontem] can be
    evaluated, [disconnect()] does what C5 says: it is fulfilled, ends with
    the record absent and [connected] false, and emits [disconnect] exactly
    once, as its last event.  Without a record nothing else happens; with a
    record and a provider, [provider.disconnect()] is called once, and its
    failure becomes an [error] event carrying a [WalletDisconnectionError]. *)
Lemma disconnect_where_lookup_succeeds
    (W : World) (this : PontemWalletAdapter) (provider : option IPontemWallet) :
  the_provider W this = Returns provider ->
  outcome (run W disconnect this) = Returns tt /\
  _wallet (final (run W disconnect this)) = None /\
  connected (final (run W disconnect this)) = false /\
  filter is_disconnect (events (trace (run W disconnect this))) = [ev_disconnect] /\
  match _wallet this, provider with
  | Some _, Some p =>
      match provider_reply W p p_disconnect with
      | Returns _ =>
          trace (run W disconnect this) = [Called p p_disconnect; Emitted ev_disconnect]
      | Throws e =>
          trace (run W disconnect this) =
            [Called p p_disconnect;
             Emitted (ev_error (JWalletError WalletDisconnectionError
                                             (opt_member e "message") e));
             Emitted ev_disconnect]
      end
  | _, _ => trace (run W disconnect this) = [Emitted ev_disconnect]
  end.
Proof.
  intros Hp. unfold disconnect, connected. cbn.
  found_provider Hp; cbn; rewrite ?Ew; cbn.
  all: destruct (_wallet this) as [w|] eqn:Erecord; cbn; rewrite ?Erecord.
  all: try (repeat split; fail).
  all: try (destruct (pontem p) as [q|]; cbn; rewrite ?Erecord).
  all: try (repeat split; fail).
  all: match goal with
       | |- context [provider_reply ?w ?p p_disconnect] =>
           destruct (provider_reply w p p_disconnect); cbn
       end.
  all: repeat split.
Qed.

(** C5 at the input where the code departs from it: on a host with no global
    [window], where the constructor itself leaves [_provider] undefined,
    [disconnect()] throws the [ReferenceError] of its unguarded
    [window.pontem] and emits nothing. *)
Theorem C5_disconnect_without_window :
  constructor server None =
    {| _provider := None; _timeout := 10000; _readyState := Unsupported;
       _connecting := false; _wallet := None |} /\
  run server disconnect (constructor server None) =
    {| trace := [];
       final := constructor server None;
       outcome := Throws (JError ReferenceError "window is not defined") |}.
Proof. split; reflexivity. Qed.

(** ** [signTransaction] *)

(** Wherever the provider lookup can be evaluated, [signTransaction] does
    what C8 says: with no record or no provider it rejects with a
    [WalletNotConnectedError] and calls no provider operation. *)
Lemma signTransaction_not_connected
    (W : World) (this : PontemWalletAdapter) (provider : option IPontemWallet)
    (t o : JsValue) :
  the_provider W this = Returns provider ->
  _wallet this = None \/ provider = None ->
  outcome (run W (signTransaction t o) this) =
    Throws (JWalletError WalletNotConnectedError JUndefined JUndefined) /\
  calls (trace (run W (signTransaction t o) this)) = [] /\
  events (trace (run W (signTransaction t o) this)) =
    [ev_error (JWalletError WalletSignTransactionError
                 (JWalletError WalletNotConnectedError JUndefined JUndefined)
                 JUndefined)] /\
  final (run W (signTransaction t o) this) = this.
Proof.
  intros Hp Hnone. unfold signTransaction. cbn.
  found_provider Hp; cbn; rewrite ?Ew; cbn.
  - destruct Hnone as [Hw|Hn]; [|discriminate Hn].
    rewrite Hw. cbn. repeat split.
  - destruct Hnone as [Hw|Hn].
    + rewrite Hw. cbn. repeat split.
    + rewrite Hn. destruct (_wallet this); cbn; repeat split.
Qed.

Example signTransaction_without_extension :
  outcome (run bare_browser
             (signTransaction (JObject [("type", JStr "entry_function_payload")]) JUndefined)
             (constructor bare_browser None)) =
    Throws (JWalletError WalletNotConnectedError JUndefined JUndefined).
Proof.
  apply (signTransaction_not_connected bare_browser (constructor bare_browser None) None).
  - reflexivity.
  - left; reflexivity.
Qed.

(** C8 at the input where the code departs from it: on a host with no global
    [window] a fresh adapter has neither record nor provider, and
    [signTransaction] rejects with the [ReferenceError] of its unguarded
    [window.pontem], not with a [WalletNotConnectedError].  No provider
    operation is invoked. *)
Theorem C8_signTransaction_without_window :
  _wallet (constructor server None) = None /\
  _provider (constructor server None) = None /\
  window server = None /\
  run server (signTransaction (JObject [("type", JStr "entry_function_payload")]) JUndefined)
      (constructor server None) =
    {| trace :=
         [Emitted (ev_error (JWalletError WalletSignTransactionError
                               (JError ReferenceError "window is not defined")
                               JUndefined))];
       final := constructor server None;
       outcome := Throws (JError ReferenceError "window is not defined") |}.
Proof. repeat split. Qed.

(** ** [signAndSubmitTransaction] *)

(** With a record, a provider, and a provider response that is missing or
    whose [success] is falsy, the [try] block throws [new Error('No
    response')]; the [catch] block then evaluates [error.error.message] on
    it, and as an [Error] has no [error] property that read throws a
    [TypeError].  So no [error] event is emitted and the call rejects with
    the [TypeError].  The fields of the adapter are untouched. *)
Lemma signAndSubmit_unsuccessful
    (W : World) (this : PontemWalletAdapter) (p : IPontemWallet)
    (w : PontemAccount) (t o response : JsValue) :
  _wallet this = Some w ->
  the_provider W this = Returns (Some p) ->
  provider_reply W p (p_signAndSubmit t o) = Returns response ->
  truthy (opt_member response "success") = false ->
  run W (signAndSubmitTransaction t o) this =
    {| trace := [Called p (p_signAndSubmit t o)];
       final := this;
       outcome := Throws (JError TypeError
                            "Cannot read properties of undefined (reading 'message')") |}.
Proof.
  intros Hw Hp Hreply Hfail. unfold signAndSubmitTransaction. cbn.
  found_provider Hp; cbn; rewrite ?Ew; cbn; rewrite ?Hp; cbn.
  all: rewrite Hw; cbn; rewrite Hreply; cbn; rewrite Hfail; cbn.
  all: rewrite orb_true_r; cbn; reflexivity.
Qed.

(** C3 at the input where the code departs from it: the adapter is connected
    and the provider answers [{ success: false }].  The call rejects and the
    record is unchanged, but no [error] event reaches the observers, and the
    rejection is the [TypeError] raised inside the [catch] block. *)
Theorem C3_signAndSubmit_failure_emits_nothing :
  connected linked = true /\
  provider_reply (browser refusing) 1
    (p_signAndSubmit (JObject [("type", JStr "entry_function_payload")]) JUndefined) =
    Returns (JObject [("success", JBool false)]) /\
  run (browser refusing)
      (signAndSubmitTransaction (JObject [("type", JStr "entry_function_payload")]) JUndefined)
      linked =
    {| trace := [Called 1 (p_signAndSubmit (JObject [("type", JStr "entry_function_payload")])
                                           JUndefined)];
       final := linked;
       outcome := Throws (JError TypeError
                            "Cannot read properties of undefined (reading 'message')") |}.
Proof. repeat split. Qed.

(** ** [signMessage] *)

(** C9. In a connected state with a provider, [signMessage(message)]
    resolves to [h] when the provider answers
    [{ success: true, result: { hexString: h } }]; and when the provider
    answers [{ success: false }] it rejects with the generic
    [Error('Sign Message failed')] after emitting one [error] event that
    carries a [WalletSignMessageError]. *)
Theorem C9_signMessage
    (W : World) (this : PontemWalletAdapter) (p : IPontemWallet) (message : string) :
  connected this = true ->
  the_provider W this = Returns (Some p) ->
  (forall h : JsValue,
     provider_reply W p (p_signMessage message) =
       Returns (JObject [("success", JBool true);
                         ("result", JObject [("hexString", h)])]) ->
     outcome (run W (signMessage message) this) = Returns h /\
     events (trace (run W (signMessage message) this)) = [] /\
     final (run W (signMessage message) this) = this) /\
  (provider_reply W p (p_signMessage message) =
     Returns (JObject [("success", JBool false)]) ->
   outcome (run W (signMessage message) this) = Throws (JError Error "Sign Message failed") /\
   events (trace (run W (signMessage message) this)) =
     [ev_error (JWalletError WalletSignMessageError (JStr "Sign Message failed") JUndefined)] /\
   final (run W (signMessage message) this) = this).
Proof.
  intros Hc Hp.
  assert (Hw : exists w, _wallet this = Some w).
  { unfold connected in Hc. destruct (_wallet this) as [w|]; [eauto | discriminate]. }
  destruct Hw as [w Hw].
  split; [intros h Hreply | intros Hreply].
  all: unfold signMessage; cbn.
  all: found_provider Hp; cbn; rewrite ?Ew; cbn; rewrite ?Hp; cbn.
  all: rewrite Hw; cbn; rewrite Hreply; cbn; repeat split.
Qed.

Lemma C9_witness :
  outcome (run (browser approving) (signMessage "hello") linked) = Returns (JStr "0xdead") /\
  outcome (run (browser refusing) (signMessage "hello") linked) =
    Throws (JError Error "Sign Message failed") /\
  events (trace (run (browser refusing) (signMessage "hello") linked)) =
    [ev_error (JWalletError WalletSignMessageError (JStr "Sign Message failed") JUndefined)].
Proof.
  destruct (proj1 (C9_signMessage (browser approving) linked 1 "hello" eq_refl eq_refl)
              (JStr "0xdead") eq_refl) as (Hok & _).
  destruct (proj2 (C9_signMessage (browser refusing) linked 1 "hello" eq_refl eq_refl)
              eq_refl) as (Hfail & Hevent & _).
  exact (conj Hok (conj Hfail Hevent)).
Defined.

(** ** [publicAccount] *)

(** C10. [publicAccount] is a total function of the fields: it cannot fail.
    In every state an instance can reach it answers [null] for each
    identifier the record does not set; with no record the answer is
    [{ publicKey: null, address: null, authKey: null }]; [authKey] is always
    [null], in particular after every successful [connect()], which never
    sets it. *)
Theorem C10_publicAccount (M : Machine) :
  reachable M ->
  (_wallet (adapter M) = None ->
   publicAccount (adapter M) =
     {| keys_publicKey := JNull; keys_address := JNull; keys_authKey := JNull |}) /\
  (forall w, _wallet (adapter M) = Some w ->
     (publicKey w = JUndefined -> keys_publicKey (publicAccount (adapter M)) = JNull) /\
     (address w = JUndefined -> keys_address (publicAccount (adapter M)) = JNull) /\
     (authKey w = JUndefined -> keys_authKey (publicAccount (adapter M)) = JNull)) /\
  keys_authKey (publicAccount (adapter M)) = JNull /\
  (forall W : World,
     outcome (run W connect (adapter M)) = Returns tt ->
     keys_authKey (publicAccount (final (run W connect (adapter M)))) = JNull).
Proof.
  intros Hreach. pose proof (reachable_from_connect M Hreach) as Hinv.
  assert (Hnull : forall this, record_from_connect this ->
                               keys_authKey (publicAccount this) = JNull).
  { intros this H. unfold publicAccount. cbn.
    destruct (_wallet this) as [w|] eqn:Ew; [|reflexivity].
    destruct (H w Ew) as [_ Hk]. rewrite Hk. reflexivity. }
  repeat apply conj.
  - intros Hw. unfold publicAccount. rewrite Hw. reflexivity.
  - intros w Hw. unfold publicAccount. cbn. rewrite Hw.
    repeat apply conj; intros Hk; rewrite Hk; reflexivity.
  - apply Hnull, Hinv.
  - intros W _. apply Hnull.
    apply (after_keeps record_from_connect
             from_connect_keeps_connecting from_connect_cleared from_connect_recorded
             W op_connect (adapter M) Hinv).
Qed.

Example publicAccount_linked :
  connected linked = true /\
  publicAccount linked =
    {| keys_publicKey := JStr "0xB"; keys_address := JStr "0xA"; keys_authKey := JNull |}.
Proof. split; reflexivity. Qed.

Lemma detected_reachable : reachable {| adapter := detected; in_flight := [] |}.
Proof.
  apply (reachable_step {| adapter := fresh; in_flight := [] |}).
  - exact (reachable_new (browser approving) None).
  - apply (step_poll (window (browser approving)) {| adapter := fresh; in_flight := [] |}).
    cbn. discriminate.
Qed.

Lemma C10_witness :
  publicAccount fresh =
    {| keys_publicKey := JNull; keys_address := JNull; keys_authKey := JNull |} /\
  outcome (run (browser approving) connect detected) = Returns tt /\
  keys_authKey (publicAccount linked) = JNull.
Proof.
  destruct (C10_publicAccount {| adapter := fresh; in_flight := [] |}
              (reachable_new (browser approving) None)) as (Hnone & _).
  destruct (C10_publicAccount {| adapter := detected; in_flight := [] |} detected_reachable)
    as (_ & _ & _ & Hconnect).
  exact (conj (Hnone eq_refl) (conj eq_refl (Hconnect (browser approving) eq_refl))).
Defined.

(** * Further properties of the operations *)

(** ** Exceptions and [finally] *)

(** A [finally] block that only assigns: the [try] block's trace and outcome
    stand, and the assignment is applied to the fields it ends with. *)
Lemma run_try_finally_assign {A : Type} (W : World) (body : Prog A)
    (f : PontemWalletAdapter -> PontemWalletAdapter) (this : PontemWalletAdapter) :
  run W (try_finally body (assign f)) this =
    {| trace := trace (run W body this);
       final := f (final (run W body this));
       outcome := outcome (run W body this) |}.
Proof.
  revert this.
  induction body as [a|e|k IH|g k IH|k IH|ev k IH|args k IH|provider c k IH];
    intros this; cbn.
  - reflexivity.
  - reflexivity.
  - apply IH.
  - apply IH.
  - apply IH.
  - rewrite IH. reflexivity.
  - rewrite IH. reflexivity.
  - destruct provider as [p|]; cbn; rewrite IH; reflexivity.
Qed.

(** A property read throws nothing but a [TypeError]. *)
Lemma member_throws (v : JsValue) (p : string) (e : JsValue) :
  member v p = Throws e -> exists message, e = JError TypeError message.
Proof.
  destruct v; cbn; intros H; try discriminate H; injection H as <-; eexists; reflexivity.
Qed.

(** Exploring every path of an operation: the answers of the provider, the
    globals and the fields it branches on. *)
Ltac known :=
  repeat match goal with
         | H : ?x = _ |- context [?x] => rewrite H
         end.

Ltac branch :=
  match goal with
  | |- context [provider_reply ?W ?p ?c] => destruct (provider_reply W p c) eqn:?
  | |- context [truthy ?v] => destruct (truthy v) eqn:?
  | |- context [_provider ?s] => is_var s; destruct (_provider s) eqn:?
  | |- context [window ?W] => is_var W; destruct (window W) eqn:?
  | |- context [pontem ?w] => is_var w; destruct (pontem w) eqn:?
  | |- context [_wallet ?s] => is_var s; destruct (_wallet s) eqn:?
  | |- context [isConnected ?w] => is_var w; destruct (isConnected w) eqn:?
  | |- context [_connecting ?s] => is_var s; destruct (_connecting s) eqn:?
  | |- context [_readyState ?s] => is_var s; destruct (_readyState s) eqn:?
  | |- context [member ?v ?p] =>
      let E := fresh "Eread" in
      let T := fresh "Ethrown" in
      destruct (member v p) eqn:E;
      [ | pose proof (member_throws _ _ _ E) as T; destruct T as [? ->] ]
  end.

Ltac explore := repeat (cbn; known; try branch).

(** ** [connect], the remaining paths *)

(** X1. A [connect()] that goes ahead and is answered all the way (a truthy
    response to [connect()], a truthy address, a public key) is fulfilled;
    the provider was asked, in this order, [isConnected], [disconnect] if it
    reported a session, [connect], [account], [publicKey]; the record holds
    the address and the key; [connected] is [true]; the only event is
    [connect] with the address; and [publicAccount] answers the address, the
    key (or [null]) and no [authKey]. *)
Theorem X1_connect_succeeds
    (W : World) (this : PontemWalletAdapter) (p : IPontemWallet)
    (session response account key : JsValue) :
  connected this = false ->
  connecting this = false ->
  _readyState this = Loadable \/ _readyState this = Installed ->
  the_provider W this = Returns (Some p) ->
  provider_reply W p p_isConnected = Returns session ->
  (truthy session = true -> exists d, provider_reply W p p_disconnect = Returns d) ->
  provider_reply W p p_connect = Returns response ->
  truthy response = true ->
  provider_reply W p p_account = Returns account ->
  truthy account = true ->
  provider_reply W p p_publicKey = Returns key ->
  outcome (run W connect this) = Returns tt /\
  calls (trace (run W connect this)) =
    (p, p_isConnected)
    :: (if truthy session then [(p, p_disconnect)] else [])
    ++ [(p, p_connect); (p, p_account); (p, p_publicKey)] /\
  events (trace (run W connect this)) = [ev_connect account] /\
  final (run W connect this) =
    set_connecting false
      (set_wallet (Some {| address := account; publicKey := key;
                           authKey := JUndefined; isConnected := true |}) this) /\
  connected (final (run W connect this)) = true /\
  publicAccount (final (run W connect this)) =
    {| keys_publicKey := js_or key JNull; keys_address := account; keys_authKey := JNull |}.
Proof.
  intros Hc Hg Hready Hp Hsession Hclose Hresponse Hok Haccount Hsome Hkey.
  apply ready_guard in Hready.
  unfold connect. cbn. rewrite Hc, Hg. cbn. rewrite Hready. cbn.
  found_provider Hp; cbn; rewrite ?Ew; cbn; rewrite ?Hp; cbn.
  all: rewrite Hsession; cbn.
  all: destruct (truthy session); cbn;
    [ destruct Hclose as [d Hd]; [reflexivity|]; rewrite Hd; cbn | ].
  all: rewrite Hresponse; cbn; rewrite Hok; cbn.
  all: rewrite Haccount; cbn; rewrite Hkey; cbn; rewrite Hsome; cbn.
  all: unfold js_or, publicAccount, connected; cbn; rewrite Hsome; cbn.
  all: repeat split.
  all: unfold js_or; rewrite Hsome; reflexivity.
Qed.

Lemma X1_witness :
  outcome (run (browser approving) connect detected) = Returns tt /\
  calls (trace (run (browser approving) connect detected)) =
    [(1, p_isConnected); (1, p_connect); (1, p_account); (1, p_publicKey)] /\
  events (trace (run (browser approving) connect detected)) = [ev_connect (JStr "0xA")] /\
  publicAccount (final (run (browser approving) connect detected)) =
    {| keys_publicKey := JStr "0xB"; keys_address := JStr "0xA"; keys_authKey := JNull |}.
Proof.
  destruct (X1_connect_succeeds (browser approving) detected 1
              (JBool false)
              (JObject [("address", JStr "0xA"); ("method", JStr "connected");
                        ("publicKey", JStr "0xB"); ("status", JNum 200)])
              (JStr "0xA") (JStr "0xB")
              eq_refl eq_refl (or_intror eq_refl) eq_refl eq_refl
              (fun H : false = true => False_ind _ (diff_false_true H))
              eq_refl eq_refl eq_refl eq_refl eq_refl)
    as (Ho & Hcalls & Hev & _ & _ & Hkeys).
  exact (conj Ho (conj Hcalls (conj Hev Hkeys))).
Defined.

(** X2. A [connect()] that goes ahead and gets no response from
    [provider.connect()] (a falsy value, or no provider to ask) rejects with
    [WalletNotConnectedError('No connect response')] after the generic
    [error] event; it asks neither for the account nor for the public key and
    leaves the fields as they were. *)
Theorem X2_connect_without_response
    (W : World) (this : PontemWalletAdapter) (provider : option IPontemWallet)
    (session response : JsValue) :
  connected this = false ->
  connecting this = false ->
  _readyState this = Loadable \/ _readyState this = Installed ->
  the_provider W this = Returns provider ->
  settle W provider p_isConnected = Returns session ->
  (truthy session = true -> exists d, settle W provider p_disconnect = Returns d) ->
  settle W provider p_connect = Returns response ->
  truthy response = false ->
  outcome (run W connect this) =
    Throws (JWalletError WalletNotConnectedError (JStr "No connect response") JUndefined) /\
  events (trace (run W connect this)) =
    [ev_error (JError Error "User has rejected the connection")] /\
  (forall q, ~ In (q, p_account) (calls (trace (run W connect this))) /\
             ~ In (q, p_publicKey) (calls (trace (run W connect this)))) /\
  final (run W connect this) = set_connecting false this.
Proof.
  intros Hc Hg Hready Hp Hsession Hclose Hresponse Hnone.
  apply ready_guard in Hready.
  unfold connect. cbn. rewrite Hc, Hg. cbn. rewrite Hready. cbn.
  found_provider Hp; cbn; rewrite ?Ew; cbn.
  2: destruct (pontem p) as [q|]; cbn.
  all: cbn in Hsession, Hresponse, Hclose.
  1, 2: rewrite Hsession; cbn;
    (destruct (truthy session); cbn;
     [ destruct Hclose as [d Hd]; [reflexivity|]; rewrite Hd; cbn | ]);
    rewrite Hresponse; cbn; rewrite Hnone; cbn.
  all: repeat apply conj; try reflexivity.
  all: intros q'; split; cbn; intuition discriminate.
Qed.

Lemma X2_witness :
  outcome (run (browser silent) connect detected) =
    Throws (JWalletError WalletNotConnectedError (JStr "No connect response") JUndefined) /\
  trace (run bare_browser connect (set_readyState Installed (constructor bare_browser None))) =
    [Emitted (ev_error (JError Error "User has rejected the connection"))] /\
  outcome (run bare_browser connect (set_readyState Installed (constructor bare_browser None))) =
    Throws (JWalletError WalletNotConnectedError (JStr "No connect response") JUndefined).
Proof.
  destruct (X2_connect_without_response (browser silent) detected (Some 1)
              (JBool false) JUndefined
              eq_refl eq_refl (or_intror eq_refl) eq_refl eq_refl
              (fun H : false = true => False_ind _ (diff_false_true H))
              eq_refl eq_refl) as (Ho & _).
  destruct (X2_connect_without_response bare_browser
              (set_readyState Installed (constructor bare_browser None)) None
              JUndefined JUndefined
              eq_refl eq_refl (or_intror eq_refl) eq_refl eq_refl
              (fun H : false = true => False_ind _ (diff_false_true H))
              eq_refl eq_refl) as (Ho' & _).
  exact (conj Ho (conj eq_refl Ho')).
Defined.

(** X3. However [connect()] ends (at once, fulfilled, rejected at any of its
    steps), its [finally] block has cleared [_connecting], and the ready
    state, the provider reference and the timeout are the ones it started
    with. *)
Theorem X3_connect_clears_connecting (W : World) (this : PontemWalletAdapter) :
  connecting (final (run W connect this)) = false /\
  _readyState (final (run W connect this)) = _readyState this /\
  _provider (final (run W connect this)) = _provider this /\
  _timeout (final (run W connect this)) = _timeout this.
Proof.
  split.
  - unfold connect. rewrite run_try_finally_assign. reflexivity.
  - apply (run_keeps (fun s => _readyState s = _readyState this /\
                               _provider s = _provider this /\
                               _timeout s = _timeout this) W connect).
    + apply keeps_connect; intros; assumption.
    + repeat split.
Qed.

(** X4. A rejected [connect()] has emitted the generic [error] event and
    nothing else, and has left the record as it was; a fulfilled one has
    emitted no [error]: nothing at all (the short-circuit) or one [connect]
    event. *)
Theorem X4_connect_reports_failure (W : World) (this : PontemWalletAdapter) :
  match outcome (run W connect this) with
  | Throws _ =>
      events (trace (run W connect this)) =
        [ev_error (JError Error "User has rejected the connection")] /\
      _wallet (final (run W connect this)) = _wallet this
  | Returns _ =>
      events (trace (run W connect this)) = [] \/
      exists a, events (trace (run W connect this)) = [ev_connect a]
  end.
Proof.
  unfold connect, connected, connecting.
  explore.
  all: try (split; reflexivity).
  all: try (left; reflexivity).
  all: try (right; eexists; reflexivity).
Qed.

(** ** The signing operations, the remaining paths *)

(** X5. The three signing operations never assign a field: whatever the page
    and the provider do, the adapter ends exactly as it started. *)
Theorem X5_signing_leaves_fields
    (W : World) (this : PontemWalletAdapter) (t o : JsValue) (m : string) :
  final (run W (signTransaction t o) this) = this /\
  final (run W (signAndSubmitTransaction t o) this) = this /\
  final (run W (signMessage m) this) = this.
Proof.
  repeat apply conj.
  - apply (run_keeps (fun s => s = this) W _ (keeps_signTransaction _ t o) this eq_refl).
  - apply (run_keeps (fun s => s = this) W _ (keeps_signAndSubmitTransaction _ t o) this eq_refl).
  - apply (run_keeps (fun s => s = this) W _ (keeps_signMessage _ m) this eq_refl).
Qed.

(** X6. [signTransaction] in full.  It is fulfilled only with what the
    provider answered to one [signTransaction] call that carried the payload
    and the options unchanged, the adapter holding a record, and then it
    emits nothing.  When it is rejected, it has emitted exactly one [error]
    event, a [WalletSignTransactionError] built from the very value it
    rejects with, and that value is the provider's own rejection whenever
    the provider was called. *)
Theorem X6_signTransaction_outcomes
    (W : World) (this : PontemWalletAdapter) (t o : JsValue) :
  match outcome (run W (signTransaction t o) this) with
  | Returns v =>
      events (trace (run W (signTransaction t o) this)) = [] /\
      _wallet this <> None /\
      exists p,
        the_provider W this = Returns (Some p) /\
        calls (trace (run W (signTransaction t o) this)) = [(p, p_signTransaction t o)] /\
        provider_reply W p (p_signTransaction t o) = Returns v
  | Throws e =>
      events (trace (run W (signTransaction t o) this)) =
        [ev_error (JWalletError WalletSignTransactionError e JUndefined)] /\
      (calls (trace (run W (signTransaction t o) this)) = [] \/
       exists p,
         calls (trace (run W (signTransaction t o) this)) = [(p, p_signTransaction t o)] /\
         provider_reply W p (p_signTransaction t o) = Throws e)
  end.
Proof.
  unfold signTransaction, the_provider.
  explore.
  all: try (split; [reflexivity | left; reflexivity]).
  all: try (split; [reflexivity | right; eexists; split; [reflexivity | eassumption]]).
  all: split; [reflexivity | split; [discriminate | eexists; repeat split; eassumption]].
Qed.

(** X7. [signAndSubmitTransaction], the successful path: with a record and a
    provider whose response has a truthy [success] and a [result] with a
    [hash], the call resolves to [{ hash }] alone, whatever else the response
    holds, after one provider call and without any event. *)
Theorem X7_signAndSubmit_returns_hash
    (W : World) (this : PontemWalletAdapter) (p : IPontemWallet) (w : PontemAccount)
    (t o response result hash : JsValue) :
  _wallet this = Some w ->
  the_provider W this = Returns (Some p) ->
  provider_reply W p (p_signAndSubmit t o) = Returns response ->
  truthy (opt_member response "success") = true ->
  member response "result" = Returns result ->
  member result "hash" = Returns hash ->
  run W (signAndSubmitTransaction t o) this =
    {| trace := [Called p (p_signAndSubmit t o)];
       final := this;
       outcome := Returns (JObject [("hash", hash)]) |}.
Proof.
  intros Hw Hp Hreply Hsuccess Hresult Hhash.
  assert (Hresponse : truthy response = true).
  { destruct response; try reflexivity; cbn in Hsuccess; discriminate Hsuccess. }
  unfold signAndSubmitTransaction. cbn.
  found_provider Hp; cbn; rewrite ?Ew; cbn; rewrite ?Hp; cbn.
  all: rewrite Hw; cbn; rewrite Hreply; cbn; rewrite Hresponse, Hsuccess; cbn.
  all: rewrite Hresult; cbn; rewrite Hhash; cbn; reflexivity.
Qed.

Lemma X7_witness :
  outcome (run (browser approving)
             (signAndSubmitTransaction (JObject [("type", JStr "entry_function_payload")])
                                       JUndefined) linked) =
    Returns (JObject [("hash", JStr "0x1")]).
Proof.
  exact (f_equal outcome
           (X7_signAndSubmit_returns_hash (browser approving) linked 1
              {| address := JStr "0xA"; publicKey := JStr "0xB";
                 authKey := JUndefined; isConnected := true |}
              (JObject [("type", JStr "entry_function_payload")]) JUndefined
              (JObject [("success", JBool true); ("result", JObject [("hash", JStr "0x1")])])
              (JObject [("hash", JStr "0x1")]) (JStr "0x1")
              eq_refl eq_refl eq_refl eq_refl eq_refl eq_refl)).
Defined.

(** X8. [signAndSubmitTransaction] when the provider rejects with [e]: the
    [catch] block reads [e.error.message].  If that read succeeds, one
    [error] event carries a [WalletSignAndSubmitMessageError] with that
    message and the call rejects with [e].  If the read throws ([e] or
    [e.error] is [undefined] or [null], as for a plain [Error]), no event is
    emitted and the call rejects with what the read threw, [e] being lost. *)
Theorem X8_signAndSubmit_provider_rejects
    (W : World) (this : PontemWalletAdapter) (p : IPontemWallet) (w : PontemAccount)
    (t o e : JsValue) :
  _wallet this = Some w ->
  the_provider W this = Returns (Some p) ->
  provider_reply W p (p_signAndSubmit t o) = Throws e ->
  match nested_message e with
  | Returns message =>
      events (trace (run W (signAndSubmitTransaction t o) this)) =
        [ev_error (JWalletError WalletSignAndSubmitMessageError message JUndefined)] /\
      outcome (run W (signAndSubmitTransaction t o) this) = Throws e
  | Throws raised =>
      events (trace (run W (signAndSubmitTransaction t o) this)) = [] /\
      outcome (run W (signAndSubmitTransaction t o) this) = Throws raised
  end.
Proof.
  intros Hw Hp Hreply.
  unfold signAndSubmitTransaction, nested_message. cbn.
  found_provider Hp; cbn; rewrite ?Ew; cbn; rewrite ?Hp; cbn.
  all: rewrite Hw; cbn; rewrite Hreply; cbn.
  all: destruct (member e "error") as [inner|raised]; cbn; [|split; reflexivity].
  all: destruct (member inner "message") as [message|raised]; cbn; split; reflexivity.
Qed.

Lemma X8_witness :
  events (trace (run (browser declining)
                   (signAndSubmitTransaction (JObject []) JUndefined) linked)) =
    [ev_error (JWalletError WalletSignAndSubmitMessageError (JStr "declined") JUndefined)] /\
  events (trace (run (browser failing)
                   (signAndSubmitTransaction (JObject []) JUndefined) linked)) = [] /\
  outcome (run (browser failing)
             (signAndSubmitTransaction (JObject []) JUndefined) linked) =
    Throws (JError TypeError "Cannot read properties of undefined (reading 'message')").
Proof.
  pose proof (X8_signAndSubmit_provider_rejects (browser declining) linked 1
                {| address := JStr "0xA"; publicKey := JStr "0xB";
                   authKey := JUndefined; isConnected := true |}
                (JObject []) JUndefined
                (JObject [("error", JObject [("message", JStr "declined")])])
                eq_refl eq_refl eq_refl) as Hdeclined.
  pose proof (X8_signAndSubmit_provider_rejects (browser failing) linked 1
                {| address := JStr "0xA"; publicKey := JStr "0xB";
                   authKey := JUndefined; isConnected := true |}
                (JObject []) JUndefined (JError Error "Rejected by user")
                eq_refl eq_refl eq_refl) as Hfailing.
  cbn in Hdeclined, Hfailing.
  exact (conj (proj1 Hdeclined) Hfailing).
Defined.

(** X9. [signMessage] in full.  It is fulfilled only with the [hexString] of
    the [result] of a provider response whose [success] is truthy, and then
    it emits nothing.  When it rejects with [e], it has emitted exactly one
    [error] event, a [WalletSignMessageError] carrying [e.message]; the one
    exception is a provider that rejects with [undefined] or [null]: reading
    its [message] throws inside the [catch] block, nothing is emitted and the
    call rejects with that [TypeError]. *)
Theorem X9_signMessage_outcomes
    (W : World) (this : PontemWalletAdapter) (message : string) :
  match outcome (run W (signMessage message) this) with
  | Returns v =>
      events (trace (run W (signMessage message) this)) = [] /\
      exists p response result,
        provider_reply W p (p_signMessage message) = Returns response /\
        member response "result" = Returns result /\
        member result "hexString" = Returns v
  | Throws e =>
      (exists m,
         member e "message" = Returns m /\
         events (trace (run W (signMessage message) this)) =
           [ev_error (JWalletError WalletSignMessageError m JUndefined)]) \/
      (events (trace (run W (signMessage message) this)) = [] /\
       exists p e0,
         provider_reply W p (p_signMessage message) = Throws e0 /\
         member e0 "message" = Throws e)
  end.
Proof.
  unfold signMessage.
  explore.
  all: try (left; eexists; split; reflexivity).
  all: try (left; eexists; split; [eassumption | reflexivity]).
  all: try (right; split; [reflexivity | do 2 eexists; split; eassumption]).
  all: split; [reflexivity | do 3 eexists; repeat split; eassumption].
Qed.

(** ** [disconnect] and [connect], composed *)

(** X10. [disconnect()] is idempotent.  After a [disconnect()] whose provider
    lookup could be evaluated, the record is gone, [connected] is [false] and
    [publicAccount] answers three [null]s; and a further [disconnect()] only
    emits [disconnect]: it does not call the provider again. *)
Theorem X10_disconnect_twice
    (W : World) (this : PontemWalletAdapter) (provider : option IPontemWallet) :
  the_provider W this = Returns provider ->
  connected (final (run W disconnect this)) = false /\
  publicAccount (final (run W disconnect this)) =
    {| keys_publicKey := JNull; keys_address := JNull; keys_authKey := JNull |} /\
  forall (W' : World) (provider' : option IPontemWallet),
    the_provider W' (final (run W disconnect this)) = Returns provider' ->
    trace (run W' disconnect (final (run W disconnect this))) = [Emitted ev_disconnect] /\
    outcome (run W' disconnect (final (run W disconnect this))) = Returns tt.
Proof.
  intros Hp.
  destruct (disconnect_where_lookup_succeeds W this provider Hp)
    as (_ & Hgone & Hconnected & _).
  repeat apply conj.
  - exact Hconnected.
  - unfold publicAccount. rewrite Hgone. reflexivity.
  - intros W' provider' Hp'.
    destruct (disconnect_where_lookup_succeeds W' _ provider' Hp')
      as (Hout & _ & _ & _ & Htrace).
    rewrite Hgone in Htrace. exact (conj Htrace Hout).
Qed.

Lemma X10_witness :
  calls (trace (run (browser approving) disconnect linked)) = [(1, p_disconnect)] /\
  publicAccount (final (run (browser approving) disconnect linked)) =
    {| keys_publicKey := JNull; keys_address := JNull; keys_authKey := JNull |} /\
  trace (run (browser approving) disconnect (final (run (browser approving) disconnect linked))) =
    [Emitted ev_disconnect].
Proof.
  destruct (X10_disconnect_twice (browser approving) linked (Some 1) eq_refl)
    as (_ & Hkeys & Hagain).
  exact (conj eq_refl (conj Hkeys (proj1 (Hagain (browser approving) (Some 1) eq_refl)))).
Defined.

(** X11. The [connecting] guard is not a lock.  While a first [connect()] is
    suspended on the provider, a second one returns at once, as the guard
    intends, but its [finally] block clears [_connecting]; a third one, the
    first still being in flight, therefore passes the guard and calls
    [provider.isConnected()] again. *)
Theorem X11_second_connect_releases_guard
    (W : World) (this : PontemWalletAdapter) (p : IPontemWallet) :
  connected this = false ->
  connecting this = false ->
  _readyState this = Loadable \/ _readyState this = Installed ->
  the_provider W this = Returns (Some p) ->
  let first := advance (window W) connect this in
  let second := advance (window W) connect (now first) in
  let third := advance (window W) connect (now second) in
  (exists k, next first = Suspended (Some p) p_isConnected k) /\
  connecting (now first) = true /\
  next second = Settled (Returns tt) /\
  seen second = [] /\
  connecting (now second) = false /\
  seen third = [Called p p_isConnected] /\
  (exists k, next third = Suspended (Some p) p_isConnected k).
Proof.
  intros Hc Hg Hready Hp.
  apply ready_guard in Hready.
  unfold connected, connecting in *.
  unfold connect, connected, connecting. cbn.
  rewrite Hc, Hg. cbn. rewrite Hready. cbn.
  found_provider Hp; cbn; rewrite ?Ew; cbn; rewrite ?Hp; cbn.
  all: rewrite Hc; cbn; rewrite Hc; cbn; rewrite Hready; cbn.
  all: rewrite ?Ep, ?Ew; cbn; rewrite ?Hp; cbn.
  all: repeat apply conj; try reflexivity; eexists; reflexivity.
Qed.

Lemma X11_witness :
  connecting linking = true /\
  connecting (now (advance (window (browser approving)) connect linking)) = false /\
  seen (advance (window (browser approving)) connect
          (now (advance (window (browser approving)) connect linking))) =
    [Called 1 p_isConnected].
Proof.
  destruct (X11_second_connect_releases_guard (browser approving) detected 1
              eq_refl eq_refl (or_intror eq_refl) eq_refl)
    as (_ & H1 & _ & _ & H2 & H3 & _).
  exact (conj H1 (conj H2 H3)).
Defined.

(** ** The ready state over the life of an instance *)

Lemma advance_next_keeps (I : PontemWalletAdapter -> Prop) {A : Type}
    (win : option PontemWindow) (m : Prog A) :
  keeps I m ->
  forall this,
    match next (advance win m this) with
    | Settled _ => True
    | Suspended _ _ k => forall r, keeps I (k r)
    end.
Proof.
  induction m as [a|e|k IH|f k IH|k IH|ev k IH|args k IH|provider c k IH];
    cbn; intros Hm this.
  - exact Logic.I.
  - exact Logic.I.
  - apply IH, Hm.
  - apply IH, Hm.
  - apply IH, Hm.
  - apply IH, Hm.
  - apply IH, Hm.
  - exact Hm.
Qed.

(** The polling callback never waits: it ends at once, having either left the
    fields alone or set the ready state to [Installed]. *)
Lemma detect_settles (win : option PontemWindow) (this : PontemWalletAdapter) :
  (exists o, next (advance win detect this) = Settled o) /\
  (now (advance win detect this) = this \/
   now (advance win detect this) = set_readyState Installed this).
Proof.
  unfold detect. cbn. destruct win as [w|]; cbn.
  - destruct (pontem w); cbn; split; eauto.
  - split; eauto.
Qed.

Section Transitions.
Variable J : PontemWalletAdapter -> Prop.
Hypothesis J_connecting : forall b this, J this -> J (set_connecting b this).
Hypothesis J_cleared : forall this, J this -> J (set_wallet None this).
Hypothesis J_recorded : forall a k this,
  J this ->
  J (set_wallet (Some {| address := a; publicKey := k;
                         authKey := JUndefined; isConnected := true |}) this).

Lemma park_in_flight_keep {A : Type} (win : option PontemWindow) (m : Prog A)
    (this : PontemWalletAdapter) (others : list Suspension) :
  keeps J m -> Forall (keeps_suspended J) others ->
  Forall (keeps_suspended J) (in_flight (park (advance win m this) others)).
Proof.
  intros Hm Hothers. pose proof (advance_next_keeps J win m Hm this) as Hnext.
  unfold park. cbn. destruct (next (advance win m this)); auto.
Qed.

(** Whatever is in flight came from an operation. *)
Lemma reachable_in_flight_keep (M : Machine) :
  reachable M -> Forall (keeps_suspended J) (in_flight M).
Proof.
  intros Hreach. induction Hreach as [W timeout|M M' _ IH Hstep].
  - constructor.
  - destruct Hstep as [win op M|win M Hready|win A provider c k r earlier later M Hpool Hr].
    + destruct op; cbn; apply park_in_flight_keep; auto.
      * apply keeps_connect; auto.
      * apply keeps_disconnect; auto.
      * apply keeps_signTransaction.
      * apply keeps_signAndSubmitTransaction.
      * apply keeps_signMessage.
    + destruct (detect_settles win (adapter M)) as [[o Ho] _].
      unfold park. rewrite Ho. exact IH.
    + rewrite Hpool in IH. apply Forall_app in IH as [Hearlier Hrest].
      inversion Hrest as [|t l Ht Hlater]; subst.
      apply park_in_flight_keep; [apply Ht | apply Forall_app; split; assumption].
Qed.

(** One step of the machine keeps [J], unless it is the polling callback
    setting a ready state other than [Unsupported] to [Installed]. *)
Lemma step_fields (M M' : Machine) :
  reachable M -> step M M' -> J (adapter M) ->
  J (adapter M') \/
  (_readyState (adapter M) <> Unsupported /\
   adapter M' = set_readyState Installed (adapter M)).
Proof.
  intros Hreach Hstep HJ.
  pose proof (reachable_in_flight_keep M Hreach) as Hpool.
  destruct Hstep as [win op M|win M Hready|win A provider c k r earlier later M Hwhere Hr].
  - left. destruct op; cbn; apply advance_keeps; auto.
    + apply keeps_connect; auto.
    + apply keeps_disconnect; auto.
    + apply keeps_signTransaction.
    + apply keeps_signAndSubmitTransaction.
    + apply keeps_signMessage.
  - destruct (detect_settles win (adapter M)) as [_ [Hsame|Hset]].
    + left. change (J (now (advance win detect (adapter M)))).
      rewrite Hsame. exact HJ.
    + right. split; [exact Hready | exact Hset].
  - left. rewrite Hwhere in Hpool. apply Forall_app in Hpool as [_ Hrest].
    inversion Hrest as [|t l Ht _]; subst.
    cbn. apply advance_keeps; [apply Ht | exact HJ].
Qed.
End Transitions.

Lemma reachable_steps (M M' : Machine) : reachable M -> steps M M' -> reachable M'.
Proof.
  intros Hreach Hsteps. induction Hsteps as [M|M M' M'' _ IH Hstep].
  - exact Hreach.
  - apply (reachable_step M'); [apply IH; exact Hreach | exact Hstep].
Qed.

(** In one step the provider reference and the timeout do not change, and the
    ready state changes only when the polling callback takes a state other
    than [Unsupported] to [Installed]. *)
Lemma ready_state_step (M M' : Machine) :
  reachable M ->
  step M M' ->
  _provider (adapter M') = _provider (adapter M) /\
  _timeout (adapter M') = _timeout (adapter M) /\
  (_readyState (adapter M') = _readyState (adapter M) \/
   (_readyState (adapter M) <> Unsupported /\ _readyState (adapter M') = Installed)).
Proof.
  intros Hreach Hstep.
  destruct (step_fields
              (fun s => _provider s = _provider (adapter M) /\
                        _timeout s = _timeout (adapter M) /\
                        _readyState s = _readyState (adapter M))
              (fun b this H => H) (fun this H => H) (fun a k this H => H)
              M M' Hreach Hstep (conj eq_refl (conj eq_refl eq_refl)))
    as [(Hp & Ht & Hr)|[Hready Hset]].
  - auto.
  - rewrite Hset. cbn. auto.
Qed.

(** X12. Over any run of an instance (operations called and resumed in any
    order, the polling callback fired at any time) the provider reference
    captured by the constructor and the timeout never change, and the ready
    state moves one way only: it stays as it is or, from a state other than
    [Unsupported], becomes [Installed].  So [Unsupported] is permanent and
    [Installed] is never left. *)
Theorem X12_ready_state_one_way (M M' : Machine) :
  reachable M ->
  steps M M' ->
  _provider (adapter M') = _provider (adapter M) /\
  _timeout (adapter M') = _timeout (adapter M) /\
  (_readyState (adapter M') = _readyState (adapter M) \/
   (_readyState (adapter M) <> Unsupported /\ _readyState (adapter M') = Installed)) /\
  (_readyState (adapter M) = Unsupported -> _readyState (adapter M') = Unsupported) /\
  (_readyState (adapter M) = Installed -> _readyState (adapter M') = Installed).
Proof.
  intros Hreach Hsteps.
  assert (Hmain :
    _provider (adapter M') = _provider (adapter M) /\
    _timeout (adapter M') = _timeout (adapter M) /\
    (_readyState (adapter M') = _readyState (adapter M) \/
     (_readyState (adapter M) <> Unsupported /\ _readyState (adapter M') = Installed))).
  { induction Hsteps as [M|M M' M'' Hsteps IH Hstep].
    - auto.
    - destruct (IH Hreach) as (Hp & Ht & Hr).
      destruct (ready_state_step M' M'' (reachable_steps M M' Hreach Hsteps) Hstep)
        as (Hp' & Ht' & Hr').
      repeat apply conj.
      + congruence.
      + congruence.
      + destruct Hr' as [Hsame|[Hsupported Hinstalled]].
        * rewrite Hsame. exact Hr.
        * right. split; [|exact Hinstalled].
          destruct Hr as [Hsame|[Hsupported' _]]; congruence. }
  destruct Hmain as (Hp & Ht & Hr).
  repeat apply conj; auto.
  - intros Hu. destruct Hr as [Hsame|[Hsupported _]]; congruence.
  - intros Hi. destruct Hr as [Hsame|[_ Hinstalled]]; congruence.
Qed.

Lemma X12_witness :
  _provider linking = _provider fresh /\
  _timeout linking = _timeout fresh /\
  (_readyState linking = _readyState fresh \/
   (_readyState fresh <> Unsupported /\ _readyState linking = Installed)).
Proof.
  assert (Hpoll : step (idle fresh) (idle detected)).
  { apply (step_poll (window (browser approving)) (idle fresh)). cbn. discriminate. }
  assert (Hcall : steps (idle fresh)
                    (start (window (browser approving)) op_connect (idle detected))).
  { apply (steps_more _ (idle detected)).
    - apply (steps_more _ (idle fresh)); [apply steps_none | exact Hpoll].
    - apply step_call. }
  destruct (X12_ready_state_one_way (idle fresh) _
              (reachable_new (browser approving) None) Hcall) as (Hp & Ht & Hr & _).
  exact (conj Hp (conj Ht Hr)).
Defined.

Lemma reachable_never_loadable (M : Machine) :
  reachable M -> _readyState (adapter M) <> Loadable.
Proof.
  intros Hreach. induction Hreach as [W timeout|M M' Hreach IH Hstep].
  - cbn. unfold initial_readyState.
    destruct (window W); [destruct (document W)|]; discriminate.
  - destruct (ready_state_step M M' Hreach Hstep) as (_ & _ & [Hsame|[_ Hinstalled]]).
    + rewrite Hsame. exact IH.
    + rewrite Hinstalled. discriminate.
Qed.

Lemma connect_asks_when_ready (W : World) (this : PontemWalletAdapter) :
  calls (trace (run W connect this)) <> [] ->
  _readyState this = Loadable \/ _readyState this = Installed.
Proof.
  intros Hcalls.
  destruct (_readyState this) eqn:Er; auto; exfalso; apply Hcalls.
  all: unfold connect; cbn; destruct (connected this || connecting this); cbn;
    rewrite ?Er; reflexivity.
Qed.

(** X13. The ready state of an instance is never [Loadable]: nothing assigns
    it.  So the [Loadable] arm of [connect()]'s guard is never taken, and a
    [connect()] that reaches the provider finds the adapter [Installed], that
    is, after the polling callback has seen [window.pontem]. *)
Theorem X13_connect_needs_detection (M : Machine) :
  reachable M ->
  _readyState (adapter M) <> Loadable /\
  forall W : World,
    calls (trace (run W connect (adapter M))) <> [] ->
    _readyState (adapter M) = Installed.
Proof.
  intros Hreach. pose proof (reachable_never_loadable M Hreach) as Hnever.
  split; [exact Hnever|].
  intros W Hcalls.
  destruct (connect_asks_when_ready W (adapter M) Hcalls) as [Hl|Hi];
    [contradiction | exact Hi].
Qed.

Lemma X13_witness :
  _readyState detected <> Loadable /\ _readyState detected = Installed.
Proof.
  destruct (X13_connect_needs_detection (idle detected) detected_reachable) as [Hnever Hasked].
  refine (conj Hnever (Hasked (browser approving) _)).
  cbn. discriminate.
Defined.

(** On an unsupported host with nothing in flight, calling an operation
    changes nothing and leaves nothing in flight. *)
Lemma unsupported_call (win : option PontemWindow) (op : Operation)
    (this : PontemWalletAdapter) :
  _readyState this = Unsupported ->
  _wallet this = None ->
  _connecting this = false ->
  start win op (idle this) = idle this.
Proof.
  destruct this as [prov tmo rs cing w]. cbn. intros -> -> ->.
  destruct op; cbn; destruct prov; cbn; try reflexivity.
  all: destruct win as [page|]; cbn; try reflexivity.
  all: destruct (pontem page); reflexivity.
Qed.

Lemma unsupported_inert (M : Machine) :
  reachable M ->
  _readyState (adapter M) = Unsupported ->
  in_flight M = [] /\ _wallet (adapter M) = None /\ _connecting (adapter M) = false.
Proof.
  intros Hreach. induction Hreach as [W timeout|M M' Hreach IH Hstep]; intros Hu.
  - repeat split.
  - assert (Hbefore : _readyState (adapter M) = Unsupported).
    { destruct (ready_state_step M M' Hreach Hstep) as (_ & _ & [Hsame|[_ Hinstalled]]);
        congruence. }
    destruct (IH Hbefore) as (Hnone & Hw & Hc).
    destruct Hstep as [win op M|win M Hready|win A provider c k r earlier later M Hwhere Hr].
    + destruct M as [this pool]. cbn in *. subst pool.
      change (start win op {| adapter := this; in_flight := [] |})
        with (start win op (idle this)).
      rewrite (unsupported_call win op this Hbefore Hw Hc). cbn. auto.
    + contradiction.
    + rewrite Hnone in Hwhere. destruct earlier; discriminate Hwhere.
Qed.

(** X14. On a host the constructor found unsupported (no [window] or no
    [document]) the instance is inert for ever: whatever is called, no
    operation is ever left waiting for the provider, no record is ever
    stored, [connected] and [connecting] stay [false], and every
    [connect()] rejects with [WalletNotReadyError] without calling the
    provider. *)
Theorem X14_unsupported_is_inert (M : Machine) :
  reachable M ->
  _readyState (adapter M) = Unsupported ->
  in_flight M = [] /\
  _wallet (adapter M) = None /\
  connected (adapter M) = false /\
  connecting (adapter M) = false /\
  forall W : World,
    outcome (run W connect (adapter M)) =
      Throws (JWalletError WalletNotReadyError JUndefined JUndefined) /\
    calls (trace (run W connect (adapter M))) = [].
Proof.
  intros Hreach Hu.
  destruct (unsupported_inert M Hreach Hu) as (Hnone & Hw & Hc).
  repeat apply conj; auto.
  - unfold connected. rewrite Hw. reflexivity.
  - intros W. unfold connect, connected, connecting. cbn.
    rewrite Hw, Hc. cbn. rewrite Hu. cbn. split; reflexivity.
Qed.

Lemma X14_witness :
  in_flight (start (window headless) (op_signMessage "hello")
               (idle (constructor headless None))) = [] /\
  outcome (run headless connect (constructor headless None)) =
    Throws (JWalletError WalletNotReadyError JUndefined JUndefined).
Proof.
  assert (Hreach : reachable (start (window headless) (op_signMessage "hello")
                                (idle (constructor headless None)))).
  { apply (reachable_step (idle (constructor headless None))).
    - exact (reachable_new headless None).
    - apply step_call. }
  destruct (X14_unsupported_is_inert _ Hreach eq_refl) as (Hnone & _ & _ & _ & Hconnect).
  exact (conj Hnone (proj1 (Hconnect headless))).
Defined.

(** ** What the page sees while an operation waits *)

Lemma advance_at_awaits (P : PontemWalletAdapter -> Prop) {A : Type}
    (win : option PontemWindow) (m : Prog A) :
  forall this,
    at_awaits P m this ->
    waits_within P (park (advance win m this) []).
Proof.
  induction m as [a|e|k IH|f k IH|k IH|ev k IH|args k IH|provider c k IH];
    intros this Hm.
  - exact Logic.I.
  - exact Logic.I.
  - apply (IH this this Hm).
  - apply (IH (f this) Hm).
  - apply (IH win this (Hm win)).
  - apply (IH this Hm).
  - apply (IH this Hm).
  - exact Hm.
Qed.

Lemma left_alone_waits (P : PontemWalletAdapter -> Prop) (M M' : Machine) :
  waits_within P M -> left_alone M M' -> waits_within P M'.
Proof.
  intros HM Halone. induction Halone as [M|M M' M'' _ IH Hresumed].
  - exact HM.
  - specialize (IH HM).
    destruct Hresumed as [win A provider c k r this Hr].
    destruct IH as [_ Hlater].
    apply advance_at_awaits. apply Hlater. exact Hr.
Qed.

Lemma connect_at_awaits (this : PontemWalletAdapter) :
  connected this = false ->
  connecting this = false ->
  at_awaits (fun s => connecting s = true /\ _wallet s = _wallet this /\ connected s = false)
            connect this.
Proof.
  intros Hc Hg.
  assert (Hleaf : connecting (set_connecting true this) = true /\
                  _wallet (set_connecting true this) = _wallet this /\
                  connected (set_connecting true this) = false).
  { repeat split. exact Hc. }
  unfold connect. cbn. rewrite Hc, Hg. cbn.
  destruct (negb _); [exact Logic.I|]. cbn.
  destruct (_provider this) as [p|]; cbn.
  2: intros [page|]; cbn; [|exact Logic.I].
  all: repeat first
         [ exact Logic.I
         | split; [exact Hleaf|]; intros [?|?] _; cbn; [|exact Logic.I]
         | match goal with
           | |- context [if ?b then _ else _] => destruct b; cbn
           end ].
Qed.

(** X15. As long as nothing else of the adapter runs in between (no other
    operation is called, the polling callback does not fire), a [connect()]
    called on an idle instance that is neither connected nor connecting
    finds, each time it is suspended and whatever the provider has answered
    so far, [connecting] true, [connected] false and the record it started
    with: the record is written only after the last answer of the provider
    has arrived. *)
Theorem X15_connect_in_flight
    (win : option PontemWindow) (this : PontemWalletAdapter) (M : Machine) :
  connected this = false ->
  connecting this = false ->
  left_alone (start win op_connect (idle this)) M ->
  in_flight M <> [] ->
  connecting (adapter M) = true /\
  _wallet (adapter M) = _wallet this /\
  connected (adapter M) = false.
Proof.
  intros Hc Hg Halone Hwaiting.
  pose proof (advance_at_awaits _ win connect this (connect_at_awaits this Hc Hg)) as Hstart.
  pose proof (left_alone_waits _ _ M Hstart Halone) as HM.
  unfold waits_within in HM.
  destruct (in_flight M) as [|[A provider c k] [|t rest]].
  - contradiction.
  - exact (proj1 HM).
  - contradiction.
Qed.

Lemma X15_witness :
  exists M,
    left_alone (start (window (browser approving)) op_connect (idle detected)) M /\
    length (in_flight M) = 1 /\
    connecting (adapter M) = true /\
    _wallet (adapter M) = _wallet detected /\
    connected (adapter M) = false.
Proof.
  assert (Hresumed : exists M,
            resumed_alone (start (window (browser approving)) op_connect (idle detected)) M /\
            length (in_flight M) = 1).
  { eexists. split.
    - unfold start, park. cbn.
      apply (resume_alone (window (browser approving)) _ _ _ _ (Returns (JBool false))).
      exact Logic.I.
    - reflexivity. }
  destruct Hresumed as [M [Hresumed Hone]].
  exists M.
  assert (Halone : left_alone (start (window (browser approving)) op_connect (idle detected)) M).
  { exact (left_alone_more _ _ _ (left_alone_none _) Hresumed). }
  refine (conj Halone (conj Hone _)).
  apply (X15_connect_in_flight (window (browser approving)) detected M eq_refl eq_refl Halone).
  destruct (in_flight M); [discriminate Hone | discriminate].
Defined.

(** X16. [disconnect()] tears down locally first: when it waits for
    [provider.disconnect()], the record is already gone and [connected] is
    already [false], whatever the provider then answers. *)
Theorem X16_disconnect_clears_first (W : World) (this : PontemWalletAdapter) :
  Forall (fun s => _wallet s = None /\ connected s = false) (snapshots W disconnect this).
Proof.
  unfold disconnect. explore.
  all: repeat (constructor; [split; reflexivity|]).
  all: constructor.
Qed.

(** ** The address of the record *)

(** Invariants whose preservation depends on the path [connect] takes: it is
    enough that the three programs that assign keep them. *)
Section PathInvariants.
Variable I : PontemWalletAdapter -> Prop.
Hypothesis detect_keeps : keeps I detect.
Hypothesis connect_keeps : keeps I connect.
Hypothesis disconnect_keeps : keeps I disconnect.
Hypothesis new_keeps : forall W timeout, I (constructor W timeout).

Lemma operation_parks_sound (win : option PontemWindow) (op : Operation)
    (this : PontemWalletAdapter) (others : list Suspension) :
  I this -> Forall (keeps_suspended I) others ->
  sound I (start win op {| adapter := this; in_flight := others |}).
Proof.
  intros Hthis Hothers. destruct op; unfold start; cbn [adapter in_flight].
  - apply park_sound; assumption.
  - apply park_sound; assumption.
  - apply park_sound; [apply keeps_signTransaction | assumption | assumption].
  - apply park_sound; [apply keeps_signAndSubmitTransaction | assumption | assumption].
  - apply park_sound; [apply keeps_signMessage | assumption | assumption].
Qed.

Lemma reachable_sound_on_paths (M : Machine) : reachable M -> sound I M.
Proof.
  intros Hreach. induction Hreach as [W timeout|M M' _ IH Hstep].
  - split; cbn; auto.
  - destruct IH as [Hthis Hpool].
    destruct Hstep as [win op M|win M Hready|win A provider c k r earlier later M Hwhere Hr].
    + destruct M as [this pool]. apply operation_parks_sound; assumption.
    + apply park_sound; assumption.
    + rewrite Hwhere in Hpool. apply Forall_app in Hpool as [Hearlier Hrest].
      inversion Hrest as [|t l Ht Hlater]; subst.
      apply park_sound;
        [apply Ht | exact Hthis | apply Forall_app; split; assumption].
Qed.
End PathInvariants.

Lemma connect_keeps_address : keeps record_has_address connect.
Proof.
  unfold connect.
  apply keeps_try_finally; [apply keeps_try_catch|].
  - apply keeps_bind; [intro; exact Logic.I|]. intros this.
    destruct (connected this || connecting this); [exact Logic.I|].
    destruct (negb _); [exact Logic.I|].
    apply keeps_bind; [split; [intros s H; exact H | exact Logic.I]|]. intros _.
    apply keeps_bind; [apply keeps_provider_or_window|]. intros provider.
    apply keeps_bind; [apply keeps_await|]. intros session.
    apply keeps_bind.
    { destruct (truthy session); [|exact Logic.I].
      apply keeps_bind; [apply keeps_await | intro; exact Logic.I]. }
    intros _.
    apply keeps_bind; [apply keeps_await|]. intros response.
    destruct (negb (truthy response)); [exact Logic.I|].
    apply keeps_bind; [apply keeps_await|]. intros account.
    apply keeps_bind; [apply keeps_await|]. intros key.
    apply keeps_bind.
    { destruct (truthy account) eqn:Haddress; [|exact Logic.I].
      split; [|exact Logic.I].
      intros s _ w. cbn. intros [= <-]. exact Haddress. }
    intros _. apply keeps_bind; [intro; exact Logic.I | intro; exact Logic.I].
  - intros e. exact Logic.I.
  - split; [intros s H; exact H | exact Logic.I].
Qed.

(** X17. Whenever an instance is connected, in any state it can reach, its
    record holds a truthy address, so [publicAccount.address] is that
    address and is not [null]: [connect()] stores a record only for an
    address that passed its [if (walletAccount)] test. *)
Theorem X17_connected_has_address (M : Machine) :
  reachable M ->
  connected (adapter M) = true ->
  exists w,
    _wallet (adapter M) = Some w /\
    truthy (address w) = true /\
    keys_address (publicAccount (adapter M)) = address w /\
    keys_address (publicAccount (adapter M)) <> JNull.
Proof.
  intros Hreach Hc.
  assert (Hinv : record_has_address (adapter M)).
  { apply (reachable_sound_on_paths record_has_address).
    - apply keeps_detect. intros r s H. exact H.
    - exact connect_keeps_address.
    - apply keeps_disconnect. intros s _ w. cbn. discriminate.
    - intros W timeout w. cbn. discriminate.
    - exact Hreach. }
  unfold connected in Hc. destruct (_wallet (adapter M)) as [w|] eqn:Ew; [|discriminate Hc].
  exists w. pose proof (Hinv w Ew) as Haddress.
  assert (Hkey : keys_address (publicAccount (adapter M)) = address w).
  { unfold publicAccount. cbn. rewrite Ew. unfold js_or. rewrite Haddress. reflexivity. }
  repeat apply conj; auto.
  rewrite Hkey. intros Hnull. rewrite Hnull in Haddress. discriminate Haddress.
Qed.

(** A call run to completion is a run of the machine: the call is resumed,
    each time it is suspended, with the answer of the world. *)
Lemma run_reachable {A : Type} (W : World) (m : Prog A) :
  forall (this : PontemWalletAdapter) (pool : list Suspension),
    reachable (park (advance (window W) m this) pool) ->
    reachable {| adapter := final (run W m this); in_flight := pool |}.
Proof.
  induction m as [a|e|k IH|f k IH|k IH|ev k IH|args k IH|provider c k IH];
    intros this pool Hreach.
  - exact Hreach.
  - exact Hreach.
  - apply (IH this this pool Hreach).
  - apply (IH (f this) pool Hreach).
  - apply (IH (window W) this pool Hreach).
  - apply (IH this pool Hreach).
  - apply (IH this pool Hreach).
  - assert (Hresumed :
      reachable (park (advance (window W) (k (settle W provider c)) this) ([] ++ pool))).
    { apply (reachable_step _ _ Hreach).
      apply (step_resume (window W) A provider c k (settle W provider c) [] pool).
      - reflexivity.
      - destruct provider; [exact Logic.I | reflexivity]. }
    destruct provider as [p|]; cbn; apply (IH _ this pool Hresumed).
Qed.

Lemma after_reachable (W : World) (op : Operation) (M : Machine) :
  reachable M ->
  reachable {| adapter := after W op (adapter M); in_flight := in_flight M |}.
Proof.
  intros Hreach.
  pose proof (reachable_step M _ Hreach (step_call (window W) op M)) as Hcalled.
  destruct op; cbn in *; apply run_reachable; exact Hcalled.
Qed.

Lemma linked_reachable : reachable (idle linked).
Proof. exact (after_reachable (browser approving) op_connect (idle detected) detected_reachable). Qed.

Lemma X17_witness :
  exists w,
    _wallet linked = Some w /\
    truthy (address w) = true /\
    keys_address (publicAccount linked) = address w /\
    keys_address (publicAccount linked) <> JNull.
Proof.
  exact (X17_connected_has_address (idle linked) linked_reachable eq_refl).
Defined.

(** ** What [connect] rejects with *)

(** X18. [connect()] re-raises what went wrong.  The value it rejects with is
    one of its own two errors ([WalletNotReadyError], or
    [WalletNotConnectedError('No connect response')]), or the
    [ReferenceError] of a missing [window], or the very value with which a
    provider call it made was rejected. *)
Theorem X18_connect_rejections (W : World) (this : PontemWalletAdapter) :
  match outcome (run W connect this) with
  | Returns _ => True
  | Throws e =>
      e = JWalletError WalletNotReadyError JUndefined JUndefined \/
      e = JWalletError WalletNotConnectedError (JStr "No connect response") JUndefined \/
      (window W = None /\ e = JError ReferenceError "window is not defined") \/
      exists p c,
        In (p, c) (calls (trace (run W connect this))) /\
        provider_reply W p c = Throws e
  end.
Proof.
  unfold connect, connected, connecting.
  explore.
  all: try exact Logic.I.
  all: try (left; reflexivity).
  all: try (right; left; reflexivity).
  all: try (right; right; left; split; reflexivity).
  all: right; right; right; do 2 eexists; split; [ | eassumption]; cbn; auto 10.
Qed.

Example disconnect_waits_once :
  snapshots (browser approving) disconnect linked = [set_wallet None linked].
Proof. reflexivity. Qed.
